(** * Koven: oven simulation and binary frame codec

    A shallow embedding of [koven.c] (the oven state machine),
    [protocol.c] (CRC-16/USB and the command/event frame codec) and the
    parts of [mqtt_client.c] that stand between the two (the command
    callback and the body of the publishing loop), with the properties of
    the platform specification stated and proved over it.

    Conventions of the embedding:
    - [int16_t], [uint16_t] and [uint8_t] values are integers in [Z]; every
      conversion the C code performs is written out with [to_int16],
      [to_uint16] or [to_uint8].
    - raw buffers are lists of [byte]; [size_t] lengths are [nat].
    - a pointer argument that the code tests against [NULL] is an [option]:
      [None] is the null pointer, [Some v] a valid pointer to [v].  A
      function that writes through a pointer returns the pointee afterwards. *)

From Stdlib Require Import String Ascii DecimalString.
From Stdlib Require Import ZArith List Lia Bool Btauto.
From coqutil Require Import Byte.
From stdpp Require Import base list.

Local Open Scope Z_scope.

(** ** Machine integers *)

Definition to_uint8 (z : Z) : Z := z mod 256.
Definition to_uint16 (z : Z) : Z := z mod 65536.
Definition to_int16 (z : Z) : Z := (z + 32768) mod 65536 - 32768.

Definition uint8_range (z : Z) : Prop := 0 <= z <= 255.
Definition uint16_range (z : Z) : Prop := 0 <= z <= 65535.
Definition int16_range (z : Z) : Prop := -32768 <= z <= 32767.

(** ** koven.h: data model *)

Inductive State : Set :=
| STATE_IDLE
| STATE_PREHEATING
| STATE_BAKING
| STATE_COOLING_DOWN.

(** The enumerators' values. *)
Definition State_value (s : State) : Z :=
  match s with
  | STATE_IDLE => 0
  | STATE_PREHEATING => 1
  | STATE_BAKING => 2
  | STATE_COOLING_DOWN => 3
  end.

Definition ACTION_START : Z := 1.
Definition ACTION_STOP : Z := 2.

Record CommandPayload : Set := mkCommandPayload {
  action : Z;        (* uint8_t *)
  temperature : Z;   (* int16_t *)
  duration : Z       (* int16_t *)
}.

(** [EventPayload]; the fields are in the order of the packed struct.  The
    names carry an [ev_] prefix because [Koven] has fields of the same name. *)
Record EventPayload : Set := mkEventPayload {
  ev_state : Z;                   (* uint8_t *)
  ev_current_temperature : Z;     (* int16_t *)
  ev_remaining_time : Z;          (* int16_t *)
  ev_programmed_duration : Z;     (* int16_t *)
  ev_programmed_temperature : Z   (* int16_t *)
}.

Record Koven : Set := mkKoven {
  state : State;
  current_temperature : Z;      (* int16_t *)
  remaining_time : Z;           (* int16_t *)
  programmed_duration : Z;      (* int16_t *)
  programmed_temperature : Z    (* int16_t *)
}.

(** The values the C types range over. *)
Definition CommandPayload_wf (c : CommandPayload) : Prop :=
  uint8_range (action c) /\ int16_range (temperature c) /\ int16_range (duration c).

Definition EventPayload_wf (e : EventPayload) : Prop :=
  uint8_range (ev_state e) /\ int16_range (ev_current_temperature e) /\
  int16_range (ev_remaining_time e) /\ int16_range (ev_programmed_duration e) /\
  int16_range (ev_programmed_temperature e).

Definition Koven_wf (k : Koven) : Prop :=
  int16_range (current_temperature k) /\ int16_range (remaining_time k) /\
  int16_range (programmed_duration k) /\ int16_range (programmed_temperature k).

(** Assignments to one field of a [Koven]. *)
Definition set_state (k : Koven) (s : State) : Koven :=
  mkKoven s (current_temperature k) (remaining_time k)
          (programmed_duration k) (programmed_temperature k).
Definition set_current_temperature (k : Koven) (v : Z) : Koven :=
  mkKoven (state k) v (remaining_time k)
          (programmed_duration k) (programmed_temperature k).
Definition set_remaining_time (k : Koven) (v : Z) : Koven :=
  mkKoven (state k) (current_temperature k) v
          (programmed_duration k) (programmed_temperature k).
Definition set_programmed_duration (k : Koven) (v : Z) : Koven :=
  mkKoven (state k) (current_temperature k) (remaining_time k)
          v (programmed_temperature k).
Definition set_programmed_temperature (k : Koven) (v : Z) : Koven :=
  mkKoven (state k) (current_temperature k) (remaining_time k)
          (programmed_duration k) v.

(** ** koven.c *)

Definition ROOM_TEMPERATURE : Z := 25.

(** [koven_init] dereferences its argument without a null test, so it takes
    the pointee itself. *)
Definition koven_init (koven : Koven) : Koven :=
  let koven := set_state koven STATE_IDLE in
  let koven := set_current_temperature koven ROOM_TEMPERATURE in
  let koven := set_remaining_time koven (-1) in
  let koven := set_programmed_duration koven (-1) in
  let koven := set_programmed_temperature koven (-1) in
  koven.

Definition State_eqb (a b : State) : bool :=
  State_value a =? State_value b.

(** [koven_execute]: the result is the oven behind [koven] after the call. *)
Definition koven_execute (koven : option Koven) (cmd : option CommandPayload)
  : option Koven :=
  match koven, cmd with
  | Some k, Some c =>
      if action c =? ACTION_START then
        if State_eqb (state k) STATE_IDLE then
          let k := set_state k STATE_PREHEATING in
          let k := set_programmed_duration k (duration c) in
          let k := set_programmed_temperature k (temperature c) in
          Some k
        else Some k
      else if action c =? ACTION_STOP then
        let k := set_state k STATE_IDLE in
        let k := set_remaining_time k (-1) in
        let k := set_programmed_temperature k (-1) in
        let k := set_programmed_duration k (-1) in
        Some k
      else Some k
  | _, _ => koven
  end.

(** [koven_tick]: the oven behind [koven] and the event behind [event] after
    the call.  [x += 1] on an [int16_t] computes in [int] and converts back. *)
Definition koven_tick (koven : option Koven) (event : option EventPayload)
  : option Koven * option EventPayload :=
  match koven, event with
  | Some k, Some _ =>
      let k :=
        if State_eqb (state k) STATE_PREHEATING then
          if current_temperature k <? programmed_temperature k then
            set_current_temperature k (to_int16 (current_temperature k + 1))
          else
            let k := set_state k STATE_BAKING in
            set_remaining_time k (programmed_duration k)
        else if State_eqb (state k) STATE_BAKING then
          if remaining_time k >? 0 then
            set_remaining_time k (to_int16 (remaining_time k - 1))
          else if current_temperature k >? ROOM_TEMPERATURE then
            let k := set_state k STATE_COOLING_DOWN in
            let k := set_programmed_temperature k (-1) in
            set_programmed_duration k (-1)
          else koven_init k
        else if State_eqb (state k) STATE_COOLING_DOWN then
          if current_temperature k >? ROOM_TEMPERATURE then
            set_current_temperature k (to_int16 (current_temperature k - 1))
          else koven_init k
        else k in
      (Some k,
       Some (mkEventPayload (to_uint8 (State_value (state k)))
                            (current_temperature k)
                            (remaining_time k)
                            (programmed_duration k)
                            (programmed_temperature k)))
  | _, _ => (koven, event)
  end.

(** ** protocol.h / protocol.c *)

Definition MSG_TYPE_COMMAND : Z := 0x01.
Definition MSG_TYPE_EVENT : Z := 0x02.

(** [sizeof] of the two packed payload structs. *)
Definition sizeof_CommandPayload : nat := 5.
Definition sizeof_EventPayload : nat := 9.

(** [data[i]] as an integer.  The C code only reads inside the buffer; the
    embedding reads 0 outside it. *)
Definition read (data : list byte) (i : nat) : Z :=
  byte.unsigned (default Byte.x00 (data !! i)).

(** [buffer[i] = v] with [v] converted to [uint8_t]. *)
Definition write (buffer : list byte) (i : nat) (v : Z) : list byte :=
  <[i := byte.of_Z v]> buffer.

(** One round of the inner loop of [crc16_usb]. *)
Definition crc16_bit (crc : Z) : Z :=
  if negb (Z.land crc 0x0001 =? 0)
  then to_uint16 (Z.lxor (Z.shiftr crc 1) 0xA001)
  else to_uint16 (Z.shiftr crc 1).

(** One round of the outer loop: [crc ^= data[i]], then eight bit rounds. *)
Definition crc16_byte (crc : Z) (b : Z) : Z :=
  Nat.iter 8 crc16_bit (to_uint16 (Z.lxor crc b)).

Definition crc16_usb (data : list byte) (length : nat) : Z :=
  let crc :=
    fold_left (fun crc i => crc16_byte crc (read data i)) (seq 0 length) 0xFFFF in
  to_uint16 (Z.lxor crc 0xFFFF).

(** The little-endian helpers take the array and the offset their pointer
    argument points at. *)
Definition uint16_to_le (value : Z) (bytes : list byte) (off : nat) : list byte :=
  let bytes := write bytes off (Z.land value 0xFF) in
  write bytes (off + 1) (Z.land (Z.shiftr value 8) 0xFF).

Definition le_to_uint16 (bytes : list byte) (off : nat) : Z :=
  to_uint16 (Z.lor (read bytes off) (Z.shiftl (read bytes (off + 1)) 8)).

Definition le_to_int16 (bytes : list byte) (off : nat) : Z :=
  to_int16 (le_to_uint16 bytes off).

Definition int16_to_le (value : Z) (bytes : list byte) (off : nat) : list byte :=
  uint16_to_le (to_uint16 value) bytes off.

(** What the codec prints on [stderr], one constructor per [fprintf]. *)
Inductive Diagnostic : Set :=
| Invalid_message_type (msg_type expected : Z)
| Invalid_payload_size (payload_size : Z) (expected : nat)
| Frame_too_short (len expected_len : nat)
| CRC_mismatch (received_crc calculated_crc : Z)
| Buffer_too_small (buffer_size frame_size : nat).

(** The outcome of a codec call: the [int] it returns, the object behind its
    output pointer afterwards, and the lines it printed on [stderr]. *)
Record Outcome (A : Type) : Type := mkOutcome {
  ret : Z;
  out : option A;
  stderr : list Diagnostic
}.
Arguments mkOutcome {A} _ _ _.
Arguments ret {A} _.
Arguments out {A} _.
Arguments stderr {A} _.

Definition unmarshall_command_frame
  (data : option (list byte)) (len : nat) (cmd : option CommandPayload)
  : Outcome CommandPayload :=
  match data, cmd with
  | Some data, Some _ =>
      if (len <? 10)%nat then mkOutcome (-1) cmd []
      else
        let msg_type := read data 0 in
        let payload_size := le_to_uint16 data 1 in
        if negb (msg_type =? MSG_TYPE_COMMAND) then
          mkOutcome (-1) cmd [Invalid_message_type msg_type MSG_TYPE_COMMAND]
        else if negb (payload_size =? Z.of_nat sizeof_CommandPayload) then
          mkOutcome (-1) cmd [Invalid_payload_size payload_size sizeof_CommandPayload]
        else
          let expected_len := (1 + 2 + Z.to_nat payload_size + 2)%nat in
          if (len <? expected_len)%nat then
            mkOutcome (-1) cmd [Frame_too_short len expected_len]
          else
            let received_crc := le_to_uint16 data (3 + Z.to_nat payload_size) in
            let calculated_crc := crc16_usb data (3 + Z.to_nat payload_size) in
            if negb (received_crc =? calculated_crc) then
              mkOutcome (-1) cmd [CRC_mismatch received_crc calculated_crc]
            else
              let payload := 3%nat in
              let c := mkCommandPayload (read data (payload + 0))
                                        (le_to_int16 data (payload + 1))
                                        (le_to_int16 data (payload + 3)) in
              mkOutcome 0 (Some c) []
  | _, _ => mkOutcome (-1) cmd []
  end.

Definition marshall_event_frame
  (event : option EventPayload) (buffer : option (list byte)) (buffer_size : nat)
  : Outcome (list byte) :=
  match event, buffer with
  | Some e, Some buf =>
      let payload_size := sizeof_EventPayload in
      let frame_size := (1 + 2 + payload_size + 2)%nat in
      if (buffer_size <? frame_size)%nat then
        mkOutcome (-1) buffer [Buffer_too_small buffer_size frame_size]
      else
        let buf := write buf 0 MSG_TYPE_EVENT in
        let buf := uint16_to_le (to_uint16 (Z.of_nat payload_size)) buf 1 in
        let payload := 3%nat in
        let buf := write buf (payload + 0) (ev_state e) in
        let buf := int16_to_le (ev_current_temperature e) buf (payload + 1) in
        let buf := int16_to_le (ev_remaining_time e) buf (payload + 3) in
        let buf := int16_to_le (ev_programmed_duration e) buf (payload + 5) in
        let buf := int16_to_le (ev_programmed_temperature e) buf (payload + 7) in
        let crc := crc16_usb buf (3 + payload_size) in
        let buf := uint16_to_le crc buf (3 + payload_size) in
        mkOutcome (Z.of_nat frame_size) (Some buf) []
  | _, _ => mkOutcome (-1) buffer []
  end.

(** ** koven.c: names of states and actions *)

(** [state_to_string] and [action_to_string] switch on an integer: callers
    pass the [uint8_t] fields of a payload as well as enumerators. *)
Definition state_to_string (s : Z) : string :=
  if s =? State_value STATE_IDLE then "idle"
  else if s =? State_value STATE_PREHEATING then "preheating"
  else if s =? State_value STATE_BAKING then "baking"
  else if s =? State_value STATE_COOLING_DOWN then "cooling down"
  else "unknown".

Definition action_to_string (a : Z) : string :=
  if a =? ACTION_START then "start"
  else if a =? ACTION_STOP then "stop"
  else "unknown".

(** ** protocol.c: hexadecimal dump *)

(** The digit [printf] writes for a value below 16 under [%X]. *)
Definition hex_digit (d : Z) : ascii :=
  match String.get (Z.to_nat d) "0123456789ABCDEF" with
  | Some c => c
  | None => "?"%char
  end.

(** [printf("%02X", b)] for a [uint8_t]: two upper-case digits. *)
Definition printf_02X (b : Z) : string :=
  String (hex_digit (b / 16)) (String (hex_digit (b mod 16)) EmptyString).

(** [printf("%zu", n)]: decimal, no padding. *)
Definition printf_zu (n : nat) : string :=
  NilEmpty.string_of_uint (Nat.to_uint n).

(** [print_frame_hex]: what the call writes on [stdout]. *)
Definition print_frame_hex (data : list byte) (len : nat) : string :=
  let s := ("Frame (" ++ printf_zu len ++ " bytes): ")%string in
  let s := fold_left (fun s i => (s ++ printf_02X (read data i))%string)
                     (seq 0 len) s in
  (s ++ String "010" EmptyString)%string.

(** ** mqtt_client.c: the command callback and the loop body *)

(** The [printf] calls of the driver, one constructor per format string
    (those that stand between the codec and the oven). *)
Inductive Stdout : Set :=
| Received_binary_command (payloadlen : Z)
| Frame_hex (line : string)
| Command_parsed (action_name : string) (temperature duration : Z)
| Command_executed
| Failed_to_parse
| Publishing_event (state_name : string)
    (temp remaining programmed_temp programmed_duration : Z)
| Failed_to_publish (rc : Z)
| Failed_to_build.

(** [(size_t)n] for an [int] on the 64-bit target. *)
Definition size_t_of_int (n : Z) : nat := Z.to_nat (n mod 2 ^ 64).

(** The outcome of [message_arrived]: its return value, the oven behind
    [context] afterwards and what it printed. *)
Record Arrived : Type := mkArrived {
  arrived_ret : Z;
  arrived_koven : option Koven;
  arrived_stdout : list Stdout;
  arrived_stderr : list Diagnostic
}.

(** [message_arrived]: [context] is the oven pointer registered with the
    client, [payload] and [payloadlen] the fields of the message, [cmd] the
    contents of the uninitialised local the frame is decoded into.  Freeing
    the message and the topic leaves no trace here. *)
Definition message_arrived
  (context : option Koven) (payload : option (list byte)) (payloadlen : Z)
  (cmd : CommandPayload) : Arrived :=
  let koven := context in
  match payload with
  | None => mkArrived 1 koven [] []
  | Some data =>
      if payloadlen =? 0 then mkArrived 1 koven [] []
      else
        let printed :=
          [Received_binary_command payloadlen;
           Frame_hex (print_frame_hex data (size_t_of_int payloadlen))] in
        let r := unmarshall_command_frame
                   (Some data) (size_t_of_int payloadlen) (Some cmd) in
        let cmd := default cmd (out r) in
        if ret r =? 0 then
          let printed :=
            printed ++ [Command_parsed (action_to_string (action cmd))
                                       (temperature cmd) (duration cmd)] in
          let koven := koven_execute koven (Some cmd) in
          mkArrived 1 koven (printed ++ [Command_executed]) (stderr r)
        else
          mkArrived 1 koven (printed ++ [Failed_to_parse]) (stderr r)
  end.

Definition MQTTCLIENT_SUCCESS : Z := 0.

(** The outcome of one round of the loop of [mqtt_client_run]: the oven
    afterwards, the message handed to [MQTTClient_publishMessage] (its
    payload buffer and [payloadlen]) if any, and what was printed. *)
Record Published : Type := mkPublished {
  published_koven : option Koven;
  published_message : option (list byte * Z);
  published_stdout : list Stdout;
  published_stderr : list Diagnostic
}.

(** The body of [while (running)] in [mqtt_client_run], after [sleep(1)]:
    [event] and [frame_buffer] are the contents of the two uninitialised
    locals ([frame_buffer] has 64 bytes), [rc] is what
    [MQTTClient_publishMessage] returns. *)
Definition mqtt_client_run_round
  (koven : option Koven) (event : EventPayload) (frame_buffer : list byte)
  (rc : Z) : Published :=
  let '(koven, ev) := koven_tick koven (Some event) in
  let event := default event ev in
  let r := marshall_event_frame (Some event) (Some frame_buffer) 64 in
  let frame_buffer := default frame_buffer (out r) in
  let frame_size := ret r in
  if frame_size >? 0 then
    let printed :=
      [Publishing_event (state_to_string (ev_state event))
                        (ev_current_temperature event)
                        (ev_remaining_time event)
                        (ev_programmed_temperature event)
                        (ev_programmed_duration event);
       Frame_hex (print_frame_hex frame_buffer (size_t_of_int frame_size))] in
    let printed :=
      if rc =? MQTTCLIENT_SUCCESS then printed
      else printed ++ [Failed_to_publish rc] in
    mkPublished koven (Some (frame_buffer, frame_size)) printed (stderr r)
  else
    mkPublished koven None [Failed_to_build] (stderr r).

(** ** Driving an oven: calls and reachable states *)

(** The two entry points the driver calls on its oven, with their second
    argument (possibly a null pointer). *)
Inductive Call : Set :=
| Call_execute (cmd : option CommandPayload)
| Call_tick (event : option EventPayload).

Definition Call_wf (c : Call) : Prop :=
  match c with
  | Call_execute (Some cmd) => CommandPayload_wf cmd
  | _ => True
  end.

(** One call on a valid oven pointer. *)
Definition step (k : Koven) (c : Call) : Koven :=
  match c with
  | Call_execute cmd => default k (koven_execute (Some k) cmd)
  | Call_tick event => default k (fst (koven_tick (Some k) event))
  end.

(** [koven_init] on an oven with arbitrary contents, then the calls in order. *)
Definition run (k0 : Koven) (calls : list Call) : Koven :=
  fold_left step calls (koven_init k0).

(** The states an oven can be in: [koven_init], then any number of
    [koven_execute] and [koven_tick] calls with arguments of their C types. *)
Inductive reachable : Koven -> Prop :=
| reachable_init (k0 : Koven) :
    reachable (koven_init k0)
| reachable_execute (k k' : Koven) (cmd : option CommandPayload) :
    reachable k -> Call_wf (Call_execute cmd) ->
    koven_execute (Some k) cmd = Some k' ->
    reachable k'
| reachable_tick (k k' : Koven) (event event' : option EventPayload) :
    reachable k ->
    koven_tick (Some k) event = (Some k', event') ->
    reachable k'.

(** * Specification vocabulary

    The notions the properties below are stated with.  None of them is part
    of the code. *)

(** ** Oven *)

(** The oven after a full [koven_init]. *)
Definition koven_idle_room : Koven :=
  {| state := STATE_IDLE; current_temperature := 25; remaining_time := -1;
     programmed_duration := -1; programmed_temperature := -1 |}.

(** The event holds the five fields of the oven. *)
Definition snapshot_of (k : Koven) (e : EventPayload) : Prop :=
  ev_state e = State_value (state k) /\
  ev_current_temperature e = current_temperature k /\
  ev_remaining_time e = remaining_time k /\
  ev_programmed_temperature e = programmed_temperature k /\
  ev_programmed_duration e = programmed_duration k.

(** The transition rules of one tick, from the oven [k] before the tick to
    the oven [k'] after it. *)
Definition tick_rules (k k' : Koven) : Prop :=
  (state k = STATE_PREHEATING ->
   current_temperature k < programmed_temperature k ->
   k' = set_current_temperature k (current_temperature k + 1)) /\
  (state k = STATE_PREHEATING ->
   programmed_temperature k <= current_temperature k ->
   k' = set_remaining_time (set_state k STATE_BAKING) (programmed_duration k)) /\
  (state k = STATE_BAKING ->
   0 < remaining_time k ->
   k' = set_remaining_time k (remaining_time k - 1)) /\
  (state k = STATE_BAKING ->
   remaining_time k <= 0 -> 25 < current_temperature k ->
   k' = mkKoven STATE_COOLING_DOWN (current_temperature k) (remaining_time k)
                (-1) (-1)) /\
  (state k = STATE_BAKING ->
   remaining_time k <= 0 -> current_temperature k <= 25 ->
   k' = koven_idle_room) /\
  (state k = STATE_COOLING_DOWN ->
   25 < current_temperature k ->
   k' = set_current_temperature k (current_temperature k - 1)) /\
  (state k = STATE_COOLING_DOWN ->
   current_temperature k <= 25 ->
   k' = koven_idle_room) /\
  (state k = STATE_IDLE -> k' = k).

(** What holds of every reachable oven: the fields fit their type, the
    temperature never drops below room temperature, and the sentinel -1
    marks the fields that do not apply, except that CoolingDown keeps the
    remaining time Baking ended with. *)
Record Koven_inv (k : Koven) : Prop := mkKoven_inv {
  inv_wf : Koven_wf k;
  inv_room : ROOM_TEMPERATURE <= current_temperature k;
  inv_remaining :
    state k = STATE_IDLE \/ state k = STATE_PREHEATING -> remaining_time k = -1;
  inv_remaining_cooling :
    state k = STATE_COOLING_DOWN -> remaining_time k <= 0;
  inv_programmed :
    state k = STATE_IDLE \/ state k = STATE_COOLING_DOWN ->
    programmed_temperature k = -1 /\ programmed_duration k = -1
}.

(** C6 as the specification states it: in every reachable state the
    remaining time is -1 outside Baking, and the programmed fields are -1 in
    Idle and CoolingDown. *)
Definition sentinel_outside_baking : Prop :=
  forall k : Koven, reachable k ->
    (state k <> STATE_BAKING -> remaining_time k = -1) /\
    (state k = STATE_IDLE \/ state k = STATE_COOLING_DOWN ->
     programmed_temperature k = -1 /\ programmed_duration k = -1).

(** C7 as the specification states it: a tick with a null event pointer
    updates the oven exactly as a tick with an event does. *)
Definition tick_null_event_updates : Prop :=
  forall (k : Koven) (e : EventPayload),
    fst (koven_tick (Some k) None) = fst (koven_tick (Some k) (Some e)).

(** ** Frame codec *)

(** The value of two bytes read as an unsigned, respectively signed
    (two's complement), little-endian 16-bit integer. *)
Definition uint16_le (lo hi : Z) : Z := lo + 256 * hi.
Definition sint16_le (lo hi : Z) : Z :=
  if uint16_le lo hi <? 32768 then uint16_le lo hi else uint16_le lo hi - 65536.

(** The two bytes at [off] hold the 16-bit pattern [v], low byte first. *)
Definition holds_le16 (b : list byte) (off : nat) (v : Z) : Prop :=
  read b off = v mod 256 /\ read b (off + 1) = (v / 256) mod 256.

(** The payload size a frame declares at offsets 1-2. *)
Definition declared_payload_size (data : list byte) : Z :=
  uint16_le (read data 1) (read data 2).

(** The CRC a frame carries right after its declared payload. *)
Definition trailing_crc (data : list byte) : Z :=
  let crc_at := (3 + Z.to_nat (declared_payload_size data))%nat in
  uint16_le (read data crc_at) (read data (crc_at + 1)).

(** The CRC recomputed from [msg_type] through the end of the payload. *)
Definition recomputed_crc (data : list byte) : Z :=
  crc16_usb data (3 + Z.to_nat (declared_payload_size data)).

(** The five causes of a decoding failure. *)
Definition frame_undersized (len : nat) : Prop := (len < 10)%nat.
Definition frame_wrong_type (data : list byte) : Prop := read data 0 <> 0x01.
Definition frame_wrong_size (data : list byte) : Prop := declared_payload_size data <> 5.
Definition frame_truncated (data : list byte) (len : nat) : Prop :=
  (len < 1 + 2 + Z.to_nat (declared_payload_size data) + 2)%nat.
Definition frame_crc_mismatch (data : list byte) : Prop :=
  trailing_crc data <> recomputed_crc data.

(** The command a frame's payload holds. *)
Definition payload_command (data : list byte) : CommandPayload :=
  {| action := read data 3;
     temperature := sint16_le (read data 4) (read data 5);
     duration := sint16_le (read data 6) (read data 7) |}.

(** C8 as the specification states it: the payload holds the state, then
    the current temperature, the remaining time, the programmed temperature
    and the programmed duration, each signed 16-bit little-endian. *)
Definition payload_in_data_model_order : Prop :=
  forall (e : EventPayload) (buffer : list byte) (buffer_size : nat),
    EventPayload_wf e ->
    (buffer_size <= length buffer)%nat -> (14 <= buffer_size)%nat ->
    exists b : list byte,
      out (marshall_event_frame (Some e) (Some buffer) buffer_size) = Some b /\
      read b 3 = ev_state e /\
      sint16_le (read b 4) (read b 5) = ev_current_temperature e /\
      sint16_le (read b 6) (read b 7) = ev_remaining_time e /\
      sint16_le (read b 8) (read b 9) = ev_programmed_temperature e /\
      sint16_le (read b 10) (read b 11) = ev_programmed_duration e.

(** The frame-error conditions the specification lists. *)
Inductive FrameCause : Set :=
| Undersized_input
| Wrong_message_type
| Wrong_payload_size
| Truncated_frame
| Crc_mismatch
| Undersized_buffer.

(** A call of the codec on present arguments. *)
Inductive CodecCall : Type :=
| Decode (data : list byte) (cmd : CommandPayload)
| Encode (e : EventPayload) (buffer : list byte).

(** What a call hands back to its caller: the [int] it returns and the
    object behind its output pointer afterwards. *)
Inductive CodecResult : Type :=
| Decoded (ret : Z) (cmd : option CommandPayload)
| Encoded (ret : Z) (buffer : option (list byte)).

(** The result of a call; the length passed is that of the buffer. *)
Definition returned (c : CodecCall) : CodecResult :=
  match c with
  | Decode data cmd =>
      let r := unmarshall_command_frame (Some data) (length data) (Some cmd) in
      Decoded (ret r) (out r)
  | Encode e buffer =>
      let r := marshall_event_frame (Some e) (Some buffer) (length buffer) in
      Encoded (ret r) (out r)
  end.

Definition cause_holds (cause : FrameCause) (c : CodecCall) : Prop :=
  match cause, c with
  | Undersized_input, Decode data _ => frame_undersized (length data)
  | Wrong_message_type, Decode data _ => frame_wrong_type data
  | Wrong_payload_size, Decode data _ => frame_wrong_size data
  | Truncated_frame, Decode data _ => frame_truncated data (length data)
  | Crc_mismatch, Decode data _ => frame_crc_mismatch data
  | Undersized_buffer, Encode _ buffer => (length buffer < 14)%nat
  | _, _ => False
  end.

(** The call fails for this cause and for no other. *)
Definition fails_for (cause : FrameCause) (c : CodecCall) : Prop :=
  cause_holds cause c /\ forall other, cause_holds other c -> other = cause.

(** C9 as the specification states it: two calls that fail for different
    causes return results that tell the causes apart. *)
Definition causes_distinguished : Prop :=
  forall (c1 c2 : CodecCall) (cause1 cause2 : FrameCause),
    fails_for cause1 c1 -> fails_for cause2 c2 -> cause1 <> cause2 ->
    returned c1 <> returned c2.

(** ** Example data *)

(** Some concrete ovens and commands used in examples. *)
Definition cmd_start (t d : Z) : CommandPayload := mkCommandPayload ACTION_START t d.
Definition cmd_stop : CommandPayload := mkCommandPayload ACTION_STOP 0 0.
Definition event_zero : EventPayload := mkEventPayload 0 0 0 0 0.
Definition koven_zero : Koven := mkKoven STATE_IDLE 0 0 0 0.
Definition koven_preheating : Koven := mkKoven STATE_PREHEATING 25 (-1) 600 180.

Definition koven_baking_done : Koven := mkKoven STATE_BAKING 180 0 600 180.

(** A short bake: start at 26 degrees for 0 seconds, then three ticks
    (heat to 26, enter Baking with 0 seconds left, leave Baking). *)
Definition calls_short_bake : list Call :=
  [Call_execute (Some (cmd_start 26 0));
   Call_tick (Some event_zero); Call_tick (Some event_zero);
   Call_tick (Some event_zero)].

Definition ascii_123456789 : list byte :=
  [Byte.x31; Byte.x32; Byte.x33; Byte.x34; Byte.x35;
   Byte.x36; Byte.x37; Byte.x38; Byte.x39].

(** A well-formed Start(200, 480) frame, as the unit tests build it. *)
Definition frame_start_200_480 : list byte :=
  [Byte.x01; Byte.x05; Byte.x00; Byte.x01; Byte.xc8; Byte.x00; Byte.xe0; Byte.x01;
   Byte.xa0; Byte.x98].

Definition event_preheating : EventPayload := mkEventPayload 1 100 (-1) 600 180.
Definition buffer_20 : list byte := repeat Byte.x00 20.

(** The Start(200, 480) frame with a wrong message type (and the CRC of its
    first eight bytes), and the same frame with a wrong CRC. *)
Definition frame_wrong_type_only : list byte :=
  [Byte.xff; Byte.x05; Byte.x00; Byte.x01; Byte.xc8; Byte.x00; Byte.xe0; Byte.x01;
   Byte.x2e; Byte.x50].
Definition frame_wrong_crc_only : list byte :=
  [Byte.x01; Byte.x05; Byte.x00; Byte.x01; Byte.xc8; Byte.x00; Byte.xe0; Byte.x01;
   Byte.xff; Byte.xff].

(** ** Frames and ticks used by the further properties *)

(** A command frame built the way the unit tests of the decoder build
    theirs: header, payload, then the CRC of the first eight bytes. *)
Definition command_frame (c : CommandPayload) : list byte :=
  let frame := repeat Byte.x00 10 in
  let frame := write frame 0 MSG_TYPE_COMMAND in
  let frame := write frame 1 0x05 in
  let frame := write frame 2 0x00 in
  let frame := write frame 3 (action c) in
  let frame := int16_to_le (temperature c) frame 4 in
  let frame := int16_to_le (duration c) frame 6 in
  let crc := crc16_usb frame 8 in
  let frame := write frame 8 (Z.land crc 0xFF) in
  write frame 9 (Z.land (Z.shiftr crc 8) 0xFF).

(** One tick of a present oven (the event written is dropped), and [n]
    ticks in a row. *)
Definition tick_oven (k : Koven) : Koven :=
  default k (fst (koven_tick (Some k) (Some event_zero))).

Definition ticks (n : nat) (k : Koven) : Koven := Nat.iter n tick_oven k.

(** The number of ticks an oven needs to come back to Idle when no command
    interferes: heat to the target, one tick to enter Baking, count the
    remaining time down, one tick to leave Baking, cool to room temperature,
    one tick to reset. *)
Definition cooling_ticks (cur : Z) : Z :=
  if cur >? ROOM_TEMPERATURE then cur - ROOM_TEMPERATURE + 1 else 1.

Definition baking_ticks (cur rem : Z) : Z :=
  (if rem >? 0 then rem else 0) +
  (if cur >? ROOM_TEMPERATURE then 1 + cooling_ticks cur else 1).

Definition preheating_ticks (cur target dur : Z) : Z :=
  if cur <? target then target - cur + 1 + baking_ticks target dur
  else 1 + baking_ticks cur dur.

Definition ticks_to_idle (k : Koven) : Z :=
  match state k with
  | STATE_IDLE => 0
  | STATE_PREHEATING =>
      preheating_ticks (current_temperature k) (programmed_temperature k)
                       (programmed_duration k)
  | STATE_BAKING => baking_ticks (current_temperature k) (remaining_time k)
  | STATE_COOLING_DOWN => cooling_ticks (current_temperature k)
  end.

(** Bit [j] of byte [i] of a buffer inverted, and several bits in turn. *)
Definition flip_bit (data : list byte) (p : nat * Z) : list byte :=
  write data (fst p) (Z.lxor (read data (fst p)) (2 ^ snd p)).

Definition flip_bits (data : list byte) (ps : list (nat * Z)) : list byte :=
  fold_left flip_bit ps data.

(** The loop of [crc16_usb] over bytes given by position, and the CRC
    register an error pattern alone leaves behind (started at 0, no final
    XOR). *)
Definition crc16_loop (f : nat -> Z) (idx : list nat) (crc : Z) : Z :=
  fold_left (fun crc i => crc16_byte crc (f i)) idx crc.

Definition crc16_syndrome (e : nat -> Z) (n : nat) : Z :=
  to_uint16 (crc16_loop e (seq 0 n) 0).

(** The error pattern of a list of inverted bits: what byte [k] is XORed
    with. *)
Definition bit_pattern (ps : list (nat * Z)) (k : nat) : Z :=
  fold_left (fun acc p => if (fst p =? k)%nat then Z.lxor acc (2 ^ snd p) else acc)
            ps 0.

(** What a pattern changes between the CRC recomputed over the first eight
    bytes and the CRC carried in bytes 8-9. *)
Definition frame_syndrome (ps : list (nat * Z)) : Z :=
  Z.lxor (crc16_syndrome (bit_pattern ps) 8)
         (uint16_le (bit_pattern ps 8) (bit_pattern ps 9)).

(** Whether an odd number of the 16 low bits is set. *)
Definition parity16 (z : Z) : bool :=
  fold_right (fun i acc => xorb (Z.testbit z (Z.of_nat i)) acc) false (seq 0 16).

(** Whether a pattern sets an odd number of bits in the ten bytes. *)
Definition pattern_parity (e : nat -> Z) : bool :=
  fold_right (fun k acc => xorb (parity16 (e k)) acc) false (seq 0 10).

(** All the bits of a command frame, byte by byte. *)
Definition frame_bits : list (nat * Z) :=
  list_prod (seq 0 10) [0; 1; 2; 3; 4; 5; 6; 7].

(** Whether two bit positions are the same. *)
Definition position_eqb (p q : nat * Z) : bool :=
  (fst p =? fst q)%nat && (snd p =? snd q).

(** The ASCII code of the upper-case hexadecimal digit of value [d]:
    "0" to "9" are 48 to 57, "A" to "F" are 65 to 70. *)
Definition upper_hex_code (d : Z) : Z := if d <? 10 then 48 + d else 55 + d.

(** The digits of a dump: two per byte, for the bytes at the given
    positions. *)
Definition hex_body (data : list byte) (idx : list nat) : string :=
  fold_right (fun i rest => (printf_02X (read data i) ++ rest)%string)
             EmptyString idx.

(** A message as the client library delivers it: [payloadlen] is the
    length of the payload and fits an [int]. *)
Definition message_ok (payload : option (list byte)) (payloadlen : Z) : Prop :=
  match payload with
  | None => True
  | Some data => payloadlen = Z.of_nat (length data) /\ payloadlen < 2 ^ 31
  end.

(** What happens to the oven of [main]: the command callback on a message,
    or one round of the loop.  The calls are taken one at a time, as the
    specification's concurrency model has it. *)
Inductive DriverCall : Type :=
| Message (payload : option (list byte)) (payloadlen : Z) (cmd : CommandPayload)
| Round (event : EventPayload) (frame_buffer : list byte) (rc : Z).

Definition DriverCall_ok (c : DriverCall) : Prop :=
  match c with
  | Message payload payloadlen _ => message_ok payload payloadlen
  | Round _ frame_buffer _ => length frame_buffer = 64%nat
  end.

Definition driver_step (k : Koven) (c : DriverCall) : Koven :=
  match c with
  | Message payload payloadlen cmd =>
      default k (arrived_koven (message_arrived (Some k) payload payloadlen cmd))
  | Round event frame_buffer rc =>
      default k (published_koven
                   (mqtt_client_run_round (Some k) event frame_buffer rc))
  end.

(** [main]: [koven_init] on the oven, then the driver's calls. *)
Definition driver_run (k0 : Koven) (calls : list DriverCall) : Koven :=
  fold_left driver_step calls (koven_init k0).

(** A bit of the ten bytes of a command frame. *)
Definition frame_bit (p : nat * Z) : Prop := (fst p < 10)%nat /\ 0 <= snd p < 8.

(** * Properties of the oven simulation *)

Lemma State_eqb_eq (a b : State) : State_eqb a b = true <-> a = b.
Proof.
  unfold State_eqb. rewrite Z.eqb_eq.
  split; [destruct a, b; simpl; intros H; congruence || discriminate H | now intros ->].
Qed.

Lemma to_int16_id (z : Z) : int16_range z -> to_int16 z = z.
Proof.
  unfold int16_range, to_int16. intros H.
  rewrite Z.mod_small by lia. lia.
Qed.

Lemma to_int16_range (z : Z) : int16_range (to_int16 z).
Proof.
  unfold int16_range, to_int16.
  pose proof (Z.mod_pos_bound (z + 32768) 65536 eq_refl). lia.
Qed.

Lemma State_value_uint8 (s : State) : to_uint8 (State_value s) = State_value s.
Proof. now destruct s. Qed.

(** The complete workflow of the unit tests: Start(30, 3), then 5 ticks of
    preheating, 1 to enter Baking, 3 of baking, 1 to enter CoolingDown, 5 of
    cooling and 1 to return to Idle. *)
Example complete_workflow_cooling :
  run koven_zero (Call_execute (Some (cmd_start 30 3))
                    :: repeat (Call_tick (Some event_zero)) 10) =
    mkKoven STATE_COOLING_DOWN 30 0 (-1) (-1).
Proof. reflexivity. Qed.

Example complete_workflow_idle :
  run koven_zero (Call_execute (Some (cmd_start 30 3))
                    :: repeat (Call_tick (Some event_zero)) 16) =
    koven_idle_room.
Proof. reflexivity. Qed.

(** A tick with and without an event on a Preheating oven. *)
Example tick_with_event :
  koven_tick (Some koven_preheating) (Some event_zero) =
    (Some (mkKoven STATE_PREHEATING 26 (-1) 600 180),
     Some (mkEventPayload 1 26 (-1) 600 180)).
Proof. reflexivity. Qed.

Example tick_without_event :
  koven_tick (Some koven_preheating) None = (Some koven_preheating, None).
Proof. reflexivity. Qed.

(** C2.  [koven_execute] on a present oven and command: Start acts only in
    Idle (state becomes Preheating, the programmed fields take the command's
    values, current temperature and remaining time stay) and changes nothing
    in any other state; Stop always gives Idle with remaining time and both
    programmed fields at -1 and the current temperature kept; any other
    action changes nothing. *)
Theorem koven_execute_command_semantics (k : Koven) (c : CommandPayload) :
  (action c = ACTION_START -> state k = STATE_IDLE ->
   koven_execute (Some k) (Some c) =
     Some {| state := STATE_PREHEATING;
             current_temperature := current_temperature k;
             remaining_time := remaining_time k;
             programmed_duration := duration c;
             programmed_temperature := temperature c |}) /\
  (action c = ACTION_START -> state k <> STATE_IDLE ->
   koven_execute (Some k) (Some c) = Some k) /\
  (action c = ACTION_STOP ->
   koven_execute (Some k) (Some c) =
     Some {| state := STATE_IDLE;
             current_temperature := current_temperature k;
             remaining_time := -1;
             programmed_duration := -1;
             programmed_temperature := -1 |}) /\
  (action c <> ACTION_START -> action c <> ACTION_STOP ->
   koven_execute (Some k) (Some c) = Some k).
Proof.
  unfold koven_execute. repeat split.
  - intros -> Hs. rewrite Hs. reflexivity.
  - intros -> Hs. simpl.
    destruct (State_eqb (state k) STATE_IDLE) eqn:E; [|reflexivity].
    apply State_eqb_eq in E. contradiction.
  - intros ->. reflexivity.
  - intros H1 H2.
    apply Z.eqb_neq in H1, H2. now rewrite H1, H2.
Qed.

Lemma koven_execute_command_semantics_witness :
  koven_execute (Some koven_zero) (Some (cmd_start 180 600)) =
    Some (mkKoven STATE_PREHEATING 0 0 600 180) /\
  koven_execute (Some koven_preheating) (Some (cmd_start 200 300)) =
    Some koven_preheating /\
  koven_execute (Some koven_preheating) (Some cmd_stop) =
    Some (mkKoven STATE_IDLE 25 (-1) (-1) (-1)) /\
  koven_execute (Some koven_preheating) (Some (mkCommandPayload 99 180 600)) =
    Some koven_preheating.
Proof.
  split; [|split; [|split]].
  - apply (proj1 (koven_execute_command_semantics koven_zero (cmd_start 180 600)));
      reflexivity.
  - apply (proj1 (proj2 (koven_execute_command_semantics
                           koven_preheating (cmd_start 200 300))));
      [reflexivity | discriminate].
  - apply (proj1 (proj2 (proj2 (koven_execute_command_semantics
                                  koven_preheating cmd_stop)))).
    reflexivity.
  - apply (proj2 (proj2 (proj2 (koven_execute_command_semantics
                                  koven_preheating (mkCommandPayload 99 180 600)))));
      discriminate.
Defined.

Lemma koven_init_eq (k : Koven) : koven_init k = koven_idle_room.
Proof. reflexivity. Qed.

(** Case analysis on the guards of [koven_tick]. *)
Ltac tick_guards :=
  repeat match goal with
    | |- context [?a <? ?b] => destruct (Z.ltb_spec a b); try lia
    | |- context [?a >? ?b] => rewrite (Z.gtb_ltb a b)
    end.

Lemma koven_tick_rules (k : Koven) (e : EventPayload) :
  Koven_wf k ->
  exists (k' : Koven) (e' : EventPayload),
    koven_tick (Some k) (Some e) = (Some k', Some e') /\
    snapshot_of k' e' /\ tick_rules k k'.
Proof.
  intros (Hc & Hr & Hd & Ht). unfold int16_range in *.
  destruct k as [s c r d t]; simpl in *.
  eexists. eexists. split; [reflexivity|].
  split.
  { unfold snapshot_of. rewrite State_value_uint8. repeat split. }
  unfold tick_rules, koven_init, set_state, set_current_temperature,
    set_remaining_time, set_programmed_duration, set_programmed_temperature,
    ROOM_TEMPERATURE, koven_idle_room; simpl.
  repeat split; intros ->; simpl; intros; tick_guards;
    rewrite ?to_int16_id by (unfold int16_range; lia); reflexivity.
Qed.

(** C1.  [koven_tick] on a present oven and event follows the transition
    rules, read against the state before the tick: Preheating heats by one
    degree below the target and otherwise becomes Baking with the remaining
    time set to the programmed duration and the temperature kept; Baking
    counts the remaining time down while it is positive and otherwise
    becomes CoolingDown above room temperature (programmed fields cleared to
    -1, remaining time kept) or is fully initialised at or below it;
    CoolingDown cools by one degree above room temperature and is otherwise
    fully initialised; Idle changes nothing.  The event written holds the
    five fields of the oven after the update. *)
Theorem koven_tick_transition (k : Koven) (e : EventPayload) :
  Koven_wf k ->
  exists (k' : Koven) (e' : EventPayload),
    koven_tick (Some k) (Some e) = (Some k', Some e') /\
    (ev_state e' = State_value (state k') /\
     ev_current_temperature e' = current_temperature k' /\
     ev_remaining_time e' = remaining_time k' /\
     ev_programmed_temperature e' = programmed_temperature k' /\
     ev_programmed_duration e' = programmed_duration k') /\
    (state k = STATE_PREHEATING ->
     current_temperature k < programmed_temperature k ->
     k' = {| state := STATE_PREHEATING;
             current_temperature := current_temperature k + 1;
             remaining_time := remaining_time k;
             programmed_duration := programmed_duration k;
             programmed_temperature := programmed_temperature k |}) /\
    (state k = STATE_PREHEATING ->
     programmed_temperature k <= current_temperature k ->
     k' = {| state := STATE_BAKING;
             current_temperature := current_temperature k;
             remaining_time := programmed_duration k;
             programmed_duration := programmed_duration k;
             programmed_temperature := programmed_temperature k |}) /\
    (state k = STATE_BAKING ->
     0 < remaining_time k ->
     k' = {| state := STATE_BAKING;
             current_temperature := current_temperature k;
             remaining_time := remaining_time k - 1;
             programmed_duration := programmed_duration k;
             programmed_temperature := programmed_temperature k |}) /\
    (state k = STATE_BAKING ->
     remaining_time k <= 0 -> 25 < current_temperature k ->
     k' = {| state := STATE_COOLING_DOWN;
             current_temperature := current_temperature k;
             remaining_time := remaining_time k;
             programmed_duration := -1;
             programmed_temperature := -1 |}) /\
    (state k = STATE_BAKING ->
     remaining_time k <= 0 -> current_temperature k <= 25 ->
     k' = koven_idle_room) /\
    (state k = STATE_COOLING_DOWN ->
     25 < current_temperature k ->
     k' = {| state := STATE_COOLING_DOWN;
             current_temperature := current_temperature k - 1;
             remaining_time := remaining_time k;
             programmed_duration := programmed_duration k;
             programmed_temperature := programmed_temperature k |}) /\
    (state k = STATE_COOLING_DOWN ->
     current_temperature k <= 25 ->
     k' = koven_idle_room) /\
    (state k = STATE_IDLE -> k' = k).
Proof.
  intros Hwf.
  destruct (koven_tick_rules k e Hwf) as (k' & e' & Hrun & Hsnap & Hrules).
  exists k', e'. split; [exact Hrun|]. split; [exact Hsnap|].
  destruct Hrules as (R1 & R2 & R3 & R4 & R5 & R6 & R7 & R8).
  split; [|split; [|split; [|split; [|split; [|split; [|split]]]]]]; intros Hs.
  - intros H. rewrite (R1 Hs H), <- Hs. reflexivity.
  - intros H. rewrite (R2 Hs H). reflexivity.
  - intros H. rewrite (R3 Hs H), <- Hs. reflexivity.
  - intros H1 H2. exact (R4 Hs H1 H2).
  - intros H1 H2. exact (R5 Hs H1 H2).
  - intros H. rewrite (R6 Hs H), <- Hs. reflexivity.
  - intros H. exact (R7 Hs H).
  - exact (R8 Hs).
Qed.

Lemma koven_tick_transition_witness :
  Koven_wf koven_baking_done /\
  exists (k' : Koven) (e' : EventPayload),
    koven_tick (Some koven_baking_done) (Some event_zero) = (Some k', Some e') /\
    k' = mkKoven STATE_COOLING_DOWN 180 0 (-1) (-1) /\
    ev_remaining_time e' = 0.
Proof.
  assert (W : Koven_wf koven_baking_done).
  { unfold Koven_wf, int16_range; simpl; lia. }
  split; [exact W|].
  destruct (koven_tick_transition koven_baking_done event_zero W)
    as (k' & e' & Hrun & (_ & _ & Hrem & _) & _ & _ & _ & Hcool & _).
  exists k', e'. split; [exact Hrun|].
  assert (Hk : k' = mkKoven STATE_COOLING_DOWN 180 0 (-1) (-1)).
  { apply Hcool; simpl; [reflexivity | lia | lia]. }
  split; [exact Hk|]. rewrite Hrem, Hk. reflexivity.
Defined.

(** ** Invariants of the reachable states *)

(** Closes [Koven_inv] of an oven given by its five fields. *)
Ltac inv_fields :=
  split; unfold Koven_wf, int16_range, ROOM_TEMPERATURE in *; simpl in *; intros;
  repeat match goal with
    | H : _ \/ _ |- _ => destruct H
    | H : _ /\ _ |- _ => destruct H
    end;
  try discriminate; repeat split; auto; try lia;
  try solve [intuition (discriminate || lia)].

Lemma koven_idle_room_inv : Koven_inv koven_idle_room.
Proof. inv_fields. Qed.

Lemma koven_init_inv (k0 : Koven) : Koven_inv (koven_init k0).
Proof. rewrite koven_init_eq. apply koven_idle_room_inv. Qed.

Lemma koven_execute_inv (k k' : Koven) (cmd : option CommandPayload) :
  Call_wf (Call_execute cmd) ->
  koven_execute (Some k) cmd = Some k' ->
  Koven_inv k -> Koven_inv k'.
Proof.
  intros Hwf Hex [Hkwf Hroom Hrem Hcool Hprog].
  destruct cmd as [c|]; simpl in Hex; [|now inversion Hex; subst].
  destruct Hwf as (_ & Hct & Hcd).
  destruct k as [s cur r d t].
  destruct (action c =? ACTION_START).
  - destruct s; simpl in Hex; inversion Hex; subst; clear Hex; inv_fields.
  - destruct (action c =? ACTION_STOP); inversion Hex; subst; clear Hex;
      inv_fields.
Qed.

Lemma koven_tick_inv (k k' : Koven) (event event' : option EventPayload) :
  koven_tick (Some k) event = (Some k', event') ->
  Koven_inv k -> Koven_inv k'.
Proof.
  intros Htick Hinv.
  destruct event as [e|]; [|now inversion Htick; subst].
  destruct (koven_tick_rules k e (inv_wf k Hinv))
    as (k1 & e1 & Hrun & _ & Hheat & Hbake & Hcount & Hcool & Hdone & Hdown & Hroom & Hidle).
  rewrite Htick in Hrun.
  inversion Hrun; subst k1; clear Hrun Htick.
  destruct Hinv as [Hkwf Hge Hrem Hrc Hprog].
  destruct k as [s cur r d t]; simpl in *.
  destruct s.
  - now rewrite (Hidle eq_refl); inv_fields.
  - destruct (Z.lt_ge_cases cur t) as [Hlt|Hle].
    + rewrite (Hheat eq_refl Hlt). inv_fields.
    + rewrite (Hbake eq_refl Hle). inv_fields.
  - destruct (Z.lt_ge_cases 0 r) as [Hpos|Hzero].
    + rewrite (Hcount eq_refl Hpos). inv_fields.
    + destruct (Z.lt_ge_cases 25 cur) as [Hhot|Hcold].
      * rewrite (Hcool eq_refl Hzero Hhot). inv_fields.
      * rewrite (Hdone eq_refl Hzero Hcold). apply koven_idle_room_inv.
  - destruct (Z.lt_ge_cases 25 cur) as [Hhot|Hcold].
    + rewrite (Hdown eq_refl Hhot). inv_fields.
    + rewrite (Hroom eq_refl Hcold). apply koven_idle_room_inv.
Qed.

Lemma reachable_inv (k : Koven) : reachable k -> Koven_inv k.
Proof.
  induction 1 as [k0 | k k' cmd _ IH Hwf Hex | k k' event event' _ IH Htick].
  - apply koven_init_inv.
  - exact (koven_execute_inv k k' cmd Hwf Hex IH).
  - exact (koven_tick_inv k k' event event' Htick IH).
Qed.

(** Every run of well-typed calls ends in a reachable state. *)
Lemma step_reachable (k : Koven) (c : Call) :
  Call_wf c -> reachable k -> reachable (step k c).
Proof.
  intros Hwf Hk. destruct c as [cmd|event]; unfold step.
  - destruct (koven_execute (Some k) cmd) as [k'|] eqn:E; [|exact Hk].
    exact (reachable_execute k k' cmd Hk Hwf E).
  - destruct (koven_tick (Some k) event) as [[k'|] event'] eqn:E; [|exact Hk].
    exact (reachable_tick k k' event event' Hk E).
Qed.

Lemma run_reachable (k0 : Koven) (calls : list Call) :
  Forall Call_wf calls -> reachable (run k0 calls).
Proof.
  unfold run. generalize (reachable_init k0). generalize (koven_init k0).
  induction calls as [|c calls IH]; intros k Hk Hall; simpl; [exact Hk|].
  inversion Hall; subst. apply IH; [|assumption].
  now apply step_reachable.
Qed.

Lemma calls_short_bake_wf : Forall Call_wf calls_short_bake.
Proof.
  unfold calls_short_bake.
  repeat (apply List.Forall_cons; [simpl; trivial|]); [|apply List.Forall_nil].
  unfold CommandPayload_wf, uint8_range, int16_range; simpl.
  unfold ACTION_START. lia.
Qed.

Example run_short_bake :
  run koven_zero calls_short_bake = mkKoven STATE_COOLING_DOWN 26 0 (-1) (-1).
Proof. reflexivity. Qed.

(** C6, counterexample.  After a bake that ran to its end the oven is in
    CoolingDown with the remaining time still 0, not -1. *)
Lemma sentinel_outside_baking_fails : ~ sentinel_outside_baking.
Proof.
  intros Hclaim.
  destruct (Hclaim (run koven_zero calls_short_bake)
                   (run_reachable koven_zero _ calls_short_bake_wf)) as [Hrem _].
  rewrite run_short_bake in Hrem. simpl in Hrem.
  assert (H : 0 = -1) by (apply Hrem; discriminate).
  discriminate H.
Qed.

(** C6, amended.  In every reachable state the remaining time is -1 in Idle
    and Preheating and at most 0 in CoolingDown (the value Baking ended
    with), and the programmed temperature and duration are -1 in Idle and
    CoolingDown. *)
Theorem reachable_sentinels (k : Koven) :
  reachable k ->
  (state k = STATE_IDLE \/ state k = STATE_PREHEATING -> remaining_time k = -1) /\
  (state k = STATE_COOLING_DOWN -> remaining_time k <= 0) /\
  (state k = STATE_IDLE \/ state k = STATE_COOLING_DOWN ->
   programmed_temperature k = -1 /\ programmed_duration k = -1).
Proof.
  intros Hk. destruct (reachable_inv k Hk) as [_ _ Hrem Hcool Hprog].
  auto.
Qed.

Lemma reachable_sentinels_witness :
  reachable (run koven_zero calls_short_bake) /\
  remaining_time (run koven_zero calls_short_bake) <= 0 /\
  programmed_temperature (run koven_zero calls_short_bake) = -1 /\
  programmed_duration (run koven_zero calls_short_bake) = -1.
Proof.
  assert (Hr : reachable (run koven_zero calls_short_bake)).
  { apply run_reachable. exact calls_short_bake_wf. }
  split; [exact Hr|].
  destruct (reachable_sentinels _ Hr) as (_ & Hcool & Hprog).
  split; [apply Hcool; reflexivity | apply Hprog; right; reflexivity].
Defined.

(** C10.  In every reachable state the current temperature is at least
    room temperature (25). *)
Theorem reachable_at_least_room_temperature (k : Koven) :
  reachable k -> ROOM_TEMPERATURE <= current_temperature k.
Proof.
  intros Hk. exact (inv_room k (reachable_inv k Hk)).
Qed.

Lemma reachable_at_least_room_temperature_witness :
  reachable (run koven_zero calls_short_bake) /\
  ROOM_TEMPERATURE <= current_temperature (run koven_zero calls_short_bake).
Proof.
  assert (Hr : reachable (run koven_zero calls_short_bake)).
  { apply run_reachable. exact calls_short_bake_wf. }
  split; [exact Hr|].
  exact (reachable_at_least_room_temperature _ Hr).
Defined.

(** C7, counterexample.  A Preheating oven at 25 degrees with target 180 is
    heated to 26 by a tick with an event and left at 25 by a tick with a null
    event pointer. *)
Lemma tick_null_event_updates_fails : ~ tick_null_event_updates.
Proof.
  intros Hclaim. specialize (Hclaim koven_preheating event_zero).
  discriminate Hclaim.
Qed.

(** C7, amended.  A tick with a null oven pointer or a null event pointer is
    a no-op: the oven (if any) and the event (if any) are left as they were.
    With both present the oven is updated and the event written. *)
Theorem koven_tick_null_noop :
  (forall koven : option Koven, koven_tick koven None = (koven, None)) /\
  (forall event : option EventPayload, koven_tick None event = (None, event)) /\
  (forall (k : Koven) (e : EventPayload),
     exists (k' : Koven) (e' : EventPayload),
       koven_tick (Some k) (Some e) = (Some k', Some e') /\ snapshot_of k' e').
Proof.
  split; [|split].
  - now intros [k|].
  - now intros [e|].
  - intros k e. eexists. eexists. split; [reflexivity|].
    unfold snapshot_of. rewrite State_value_uint8. repeat split.
Qed.

(** * Properties of the frame codec *)

(** ** Bytes and little-endian integers *)

Lemma read_range (data : list byte) (i : nat) : 0 <= read data i < 256.
Proof. unfold read. apply byte.unsigned_range. Qed.

Lemma length_write (buffer : list byte) (i : nat) (v : Z) :
  length (write buffer i v) = length buffer.
Proof. apply length_insert. Qed.

Lemma read_write_eq (buffer : list byte) (i : nat) (v : Z) :
  (i < length buffer)%nat -> read (write buffer i v) i = v mod 256.
Proof.
  intros Hi. unfold read, write.
  rewrite list_lookup_insert_eq by exact Hi. simpl.
  apply byte.unsigned_of_Z.
Qed.

Lemma read_write_ne (buffer : list byte) (i j : nat) (v : Z) :
  i <> j -> read (write buffer i v) j = read buffer j.
Proof.
  intros Hij. unfold read, write.
  now rewrite list_lookup_insert_ne.
Qed.

(** The low byte and the shifted high byte have no bit in common. *)
Lemma land_low_high (lo hi : Z) :
  0 <= lo < 256 -> Z.land lo (Z.shiftl hi 8) = 0.
Proof.
  intros Hlo. apply Z.bits_inj'. intros n Hn.
  rewrite Z.land_spec, Z.bits_0.
  destruct (Z.lt_ge_cases n 8) as [Hlt|Hge].
  - rewrite Z.shiftl_spec_low by exact Hlt. apply andb_false_r.
  - rewrite <- (Z.mod_small lo (2 ^ 8)) by (change (2 ^ 8) with 256; lia).
    rewrite Z.mod_pow2_bits_high by lia. reflexivity.
Qed.

Lemma lor_low_high (lo hi : Z) :
  0 <= lo < 256 -> Z.lor lo (Z.shiftl hi 8) = lo + 256 * hi.
Proof.
  intros Hlo.
  rewrite <- Z.lxor_lor, <- Z.add_nocarry_lxor by now apply land_low_high.
  rewrite Z.shiftl_mul_pow2 by lia. change (2 ^ 8) with 256. lia.
Qed.

Lemma le_to_uint16_spec (bytes : list byte) (off : nat) :
  le_to_uint16 bytes off = uint16_le (read bytes off) (read bytes (off + 1)).
Proof.
  unfold le_to_uint16, uint16_le, to_uint16.
  pose proof (read_range bytes off). pose proof (read_range bytes (off + 1)).
  rewrite lor_low_high by assumption.
  apply Z.mod_small. lia.
Qed.

Lemma le_to_int16_spec (bytes : list byte) (off : nat) :
  le_to_int16 bytes off = sint16_le (read bytes off) (read bytes (off + 1)).
Proof.
  unfold le_to_int16, sint16_le. rewrite le_to_uint16_spec.
  unfold uint16_le, to_int16.
  pose proof (read_range bytes off). pose proof (read_range bytes (off + 1)).
  destruct (Z.ltb_spec (read bytes off + 256 * read bytes (off + 1)) 32768).
  - rewrite Z.mod_small by lia. lia.
  - replace (read bytes off + 256 * read bytes (off + 1) + 32768)
      with (read bytes off + 256 * read bytes (off + 1) - 32768 + 1 * 65536) by lia.
    rewrite Z.mod_add by lia. rewrite Z.mod_small by lia. lia.
Qed.

Lemma length_uint16_to_le (value : Z) (bytes : list byte) (off : nat) :
  length (uint16_to_le value bytes off) = length bytes.
Proof. unfold uint16_to_le. now rewrite !length_write. Qed.

Lemma read_uint16_to_le_ne (value : Z) (bytes : list byte) (off j : nat) :
  j <> off -> j <> (off + 1)%nat ->
  read (uint16_to_le value bytes off) j = read bytes j.
Proof.
  intros H1 H2. unfold uint16_to_le.
  rewrite !read_write_ne by congruence. reflexivity.
Qed.

Lemma read_uint16_to_le_lo (value : Z) (bytes : list byte) (off : nat) :
  (off + 1 < length bytes)%nat ->
  read (uint16_to_le value bytes off) off = value mod 256.
Proof.
  intros Hoff. unfold uint16_to_le.
  rewrite read_write_ne by lia. rewrite read_write_eq by lia.
  change 0xFF with (Z.ones 8). rewrite Z.land_ones by lia.
  change (2 ^ 8) with 256. apply Z.mod_mod. lia.
Qed.

Lemma read_uint16_to_le_hi (value : Z) (bytes : list byte) (off : nat) :
  (off + 1 < length bytes)%nat ->
  read (uint16_to_le value bytes off) (off + 1) = (value / 256) mod 256.
Proof.
  intros Hoff. unfold uint16_to_le.
  rewrite read_write_eq by (rewrite length_write; lia).
  change 0xFF with (Z.ones 8). rewrite Z.land_ones by lia.
  rewrite Z.shiftr_div_pow2 by lia.
  change (2 ^ 8) with 256. apply Z.mod_mod. lia.
Qed.

(** Writing a 16-bit value and reading it back, unsigned and signed. *)
Lemma uint16_le_roundtrip (v : Z) :
  uint16_range v -> uint16_le (v mod 256) ((v / 256) mod 256) = v.
Proof.
  unfold uint16_range, uint16_le. intros Hv.
  rewrite (Z.mod_small (v / 256)) by (split; [apply Z.div_pos|apply Z.div_lt_upper_bound]; lia).
  pose proof (Z.div_mod v 256). lia.
Qed.

Lemma sint16_le_roundtrip (v : Z) :
  int16_range v ->
  sint16_le (to_uint16 v mod 256) ((to_uint16 v / 256) mod 256) = v.
Proof.
  unfold int16_range, sint16_le, to_uint16. intros Hv.
  pose proof (Z.mod_pos_bound v 65536 eq_refl) as Hm.
  rewrite uint16_le_roundtrip by (unfold uint16_range; lia).
  destruct (Z.ltb_spec (v mod 65536) 32768) as [Hlt|Hge].
  - destruct (Z.lt_ge_cases v 0) as [Hneg|Hpos].
    + replace v with (v + 65536 + (-1) * 65536) in Hlt by lia.
      rewrite Z.mod_add, Z.mod_small in Hlt by lia. lia.
    + apply Z.mod_small. lia.
  - destruct (Z.lt_ge_cases v 0) as [Hneg|Hpos].
    + replace v with (v + 65536 + (-1) * 65536) at 1 by lia.
      rewrite Z.mod_add, Z.mod_small by lia. lia.
    + rewrite Z.mod_small in Hge by lia. lia.
Qed.

(** ** CRC-16/USB *)

Lemma to_uint16_range (z : Z) : uint16_range (to_uint16 z).
Proof.
  unfold uint16_range, to_uint16.
  pose proof (Z.mod_pos_bound z 65536 eq_refl). lia.
Qed.

Lemma crc16_usb_range (data : list byte) (n : nat) : uint16_range (crc16_usb data n).
Proof. unfold crc16_usb. apply to_uint16_range. Qed.

(** The loop of [crc16_usb] over any list of indices reads only those. *)
Lemma crc16_loop_ext (d1 d2 : list byte) (idx : list nat) (crc : Z) :
  (forall i, In i idx -> read d1 i = read d2 i) ->
  fold_left (fun crc i => crc16_byte crc (read d1 i)) idx crc =
  fold_left (fun crc i => crc16_byte crc (read d2 i)) idx crc.
Proof.
  revert crc. induction idx as [|i idx IH]; intros crc Hagree; simpl.
  - reflexivity.
  - rewrite (Hagree i) by now left.
    apply IH. intros j Hj. apply Hagree. now right.
Qed.

Lemma crc16_usb_ext (d1 d2 : list byte) (n : nat) :
  (forall i, (i < n)%nat -> read d1 i = read d2 i) ->
  crc16_usb d1 n = crc16_usb d2 n.
Proof.
  intros Hagree. unfold crc16_usb.
  rewrite (crc16_loop_ext d1 d2); [reflexivity|].
  intros i Hi. apply Hagree. apply in_seq in Hi. lia.
Qed.

(** C5.  [crc16_usb] is a function of the [length] bytes it is given (two
    buffers that agree on them have the same CRC), it returns 0xB4C8 for the
    nine ASCII bytes "123456789", and 0x0000 for a zero-length input. *)
Theorem crc16_usb_reference :
  (forall (d1 d2 : list byte) (n : nat),
     (forall i, (i < n)%nat -> read d1 i = read d2 i) ->
     crc16_usb d1 n = crc16_usb d2 n) /\
  crc16_usb ascii_123456789 9 = 0xB4C8 /\
  (forall data : list byte, crc16_usb data 0 = 0x0000).
Proof.
  split; [exact crc16_usb_ext|]. split.
  - vm_compute. reflexivity.
  - intros data. reflexivity.
Qed.

Lemma crc16_usb_reference_witness :
  crc16_usb (ascii_123456789 ++ [Byte.xff]) 9 = crc16_usb ascii_123456789 9.
Proof.
  apply (proj1 crc16_usb_reference).
  intros i Hi.
  do 9 (destruct i as [|i]; [reflexivity|]). lia.
Defined.

(** ** Decoding a command frame *)

(** The decoder, path by path. *)
Lemma unmarshall_command_frame_paths
  (data : list byte) (len : nat) (cmd : CommandPayload) :
  let r := unmarshall_command_frame (Some data) len (Some cmd) in
  (frame_undersized len /\ r = mkOutcome (-1) (Some cmd) []) \/
  (~ frame_undersized len /\ frame_wrong_type data /\
   r = mkOutcome (-1) (Some cmd) [Invalid_message_type (read data 0) 1]) \/
  (~ frame_undersized len /\ ~ frame_wrong_type data /\ frame_wrong_size data /\
   r = mkOutcome (-1) (Some cmd)
         [Invalid_payload_size (declared_payload_size data) 5]) \/
  (~ frame_undersized len /\ ~ frame_wrong_type data /\ ~ frame_wrong_size data /\
   ~ frame_truncated data len /\ frame_crc_mismatch data /\
   r = mkOutcome (-1) (Some cmd)
         [CRC_mismatch (trailing_crc data) (recomputed_crc data)]) \/
  (~ frame_undersized len /\ ~ frame_wrong_type data /\ ~ frame_wrong_size data /\
   ~ frame_truncated data len /\ ~ frame_crc_mismatch data /\
   r = mkOutcome 0 (Some (payload_command data)) []).
Proof.
  unfold unmarshall_command_frame, frame_undersized, frame_wrong_type,
    frame_wrong_size, frame_truncated, frame_crc_mismatch, trailing_crc,
    recomputed_crc, declared_payload_size, payload_command.
  cbv zeta. rewrite !le_to_int16_spec, !le_to_uint16_spec.
  change (Z.of_nat sizeof_CommandPayload) with 5.
  change MSG_TYPE_COMMAND with 1.
  change sizeof_CommandPayload with 5%nat.
  change (1 + 1)%nat with 2%nat.
  destruct (Nat.ltb_spec len 10) as [Hshort|Hlen]; [left; auto|].
  right.
  destruct (Z.eqb_spec (read data 0) 1) as [Htype|Htype]; simpl negb; cbv iota;
    [|left; repeat split; auto; lia].
  right.
  destruct (Z.eqb_spec (uint16_le (read data 1) (read data 2)) 5) as [Hsize|Hsize];
    simpl negb; cbv iota; [|left; repeat split; auto; lia].
  right. rewrite Hsize.
  change (Z.to_nat 5) with 5%nat. cbn [Nat.add].
  destruct (Nat.ltb_spec len 10) as [Habs|_]; [lia|].
  destruct (Z.eqb_spec (uint16_le (read data 8) (read data 9)) (crc16_usb data 8))
    as [Hcrc|Hcrc]; simpl negb; cbv iota.
  - right. repeat split; auto; first [lia | intros Hn; now apply Hn].
  - left. repeat split; auto; lia.
Qed.

(** C3.  Decoding a present buffer of [len] valid bytes into a present
    command fails (returns -1) exactly when the length is under 10, or the
    first byte is not 0x01, or the little-endian payload size at offsets 1-2
    is not 5, or the length is under 1+2+payload_size+2, or the little-endian
    CRC after the payload differs from the CRC-16/USB of the bytes from
    [msg_type] through the end of the payload.  Otherwise it returns 0 and the
    command holds payload byte 0 as action and the signed little-endian
    16-bit values at payload bytes 1-2 and 3-4 as temperature and duration. *)
Theorem unmarshall_command_frame_fails_iff
  (data : list byte) (len : nat) (cmd : CommandPayload) :
  (len <= length data)%nat ->
  let r := unmarshall_command_frame (Some data) len (Some cmd) in
  (ret r = -1 <->
     frame_undersized len \/ frame_wrong_type data \/ frame_wrong_size data \/
     frame_truncated data len \/ frame_crc_mismatch data) /\
  (ret r <> -1 ->
     ret r = 0 /\
     out r = Some {| action := read data 3;
                     temperature := sint16_le (read data 4) (read data 5);
                     duration := sint16_le (read data 6) (read data 7) |}).
Proof.
  intros _ r. subst r.
  destruct (unmarshall_command_frame_paths data len cmd)
    as [(H1 & ->) | [(N1 & H2 & ->) | [(N1 & N2 & H3 & ->) |
        [(N1 & N2 & N3 & N4 & H5 & ->) | (N1 & N2 & N3 & N4 & N5 & ->)]]]];
    simpl; (split; [split|]); try tauto; try discriminate; try (intros; lia).
Qed.

Example frame_start_200_480_decodes :
  unmarshall_command_frame (Some frame_start_200_480) 10 (Some cmd_stop) =
    mkOutcome 0 (Some (cmd_start 200 480)) [].
Proof. vm_compute. reflexivity. Qed.

Lemma unmarshall_command_frame_fails_iff_witness :
  (10 <= length frame_start_200_480)%nat /\
  ret (unmarshall_command_frame (Some frame_start_200_480) 10 (Some cmd_stop)) = 0 /\
  out (unmarshall_command_frame (Some frame_start_200_480) 10 (Some cmd_stop)) =
    Some {| action := read frame_start_200_480 3;
            temperature := sint16_le (read frame_start_200_480 4)
                                     (read frame_start_200_480 5);
            duration := sint16_le (read frame_start_200_480 6)
                                  (read frame_start_200_480 7) |}.
Proof.
  assert (Hlen : (10 <= length frame_start_200_480)%nat) by (simpl; lia).
  split; [exact Hlen|].
  apply (proj2 (unmarshall_command_frame_fails_iff
                  frame_start_200_480 10 cmd_stop Hlen)).
  vm_compute. discriminate.
Defined.

(** ** Encoding an event frame *)

Lemma read_write (buffer : list byte) (i j : nat) (v : Z) :
  (i < length buffer)%nat ->
  read (write buffer i v) j = if (j =? i)%nat then v mod 256 else read buffer j.
Proof.
  intros Hi. destruct (Nat.eqb_spec j i) as [->|Hne].
  - now apply read_write_eq.
  - apply read_write_ne. congruence.
Qed.

Lemma read_uint16_to_le (value : Z) (bytes : list byte) (off j : nat) :
  (off + 1 < length bytes)%nat ->
  read (uint16_to_le value bytes off) j =
    if (j =? off)%nat then value mod 256
    else if (j =? off + 1)%nat then (value / 256) mod 256
    else read bytes j.
Proof.
  intros Hoff.
  destruct (Nat.eqb_spec j off) as [->|Hlo].
  - now apply read_uint16_to_le_lo.
  - destruct (Nat.eqb_spec j (off + 1)) as [->|Hhi].
    + now apply read_uint16_to_le_hi.
    + now apply read_uint16_to_le_ne.
Qed.

Lemma lookup_write_ne (buffer : list byte) (i j : nat) (v : Z) :
  j <> i -> write buffer i v !! j = buffer !! j.
Proof. intros Hne. unfold write. now rewrite list_lookup_insert_ne. Qed.

Lemma lookup_uint16_to_le_ne (value : Z) (bytes : list byte) (off j : nat) :
  j <> off -> j <> (off + 1)%nat ->
  uint16_to_le value bytes off !! j = bytes !! j.
Proof.
  intros H1 H2. unfold uint16_to_le, write.
  rewrite !list_lookup_insert_ne by congruence. reflexivity.
Qed.

(** Lengths of written buffers, and bounds against them. *)
Ltac buffer_bounds :=
  repeat (rewrite length_uint16_to_le || rewrite length_write); lia.

(** Reads of a buffer built by a sequence of writes. *)
Ltac read_writes :=
  repeat first [ rewrite read_uint16_to_le by buffer_bounds
               | rewrite read_write by buffer_bounds ];
  cbn [Nat.eqb Nat.add].

(** The frame the encoder builds when the buffer is large enough. *)
Lemma marshall_event_frame_layout
  (e : EventPayload) (buffer : list byte) (buffer_size : nat) :
  (buffer_size <= length buffer)%nat -> (14 <= buffer_size)%nat ->
  exists b : list byte,
    marshall_event_frame (Some e) (Some buffer) buffer_size =
      mkOutcome 14 (Some b) [] /\
    length b = length buffer /\
    read b 0 = 2 /\ holds_le16 b 1 9 /\
    read b 3 = ev_state e mod 256 /\
    holds_le16 b 4 (to_uint16 (ev_current_temperature e)) /\
    holds_le16 b 6 (to_uint16 (ev_remaining_time e)) /\
    holds_le16 b 8 (to_uint16 (ev_programmed_duration e)) /\
    holds_le16 b 10 (to_uint16 (ev_programmed_temperature e)) /\
    holds_le16 b 12 (crc16_usb b 12) /\
    (forall i, (14 <= i)%nat -> b !! i = buffer !! i).
Proof.
  intros Hsize Hlen.
  unfold marshall_event_frame. cbv zeta.
  change sizeof_EventPayload with 9%nat. cbn [Nat.add].
  destruct (Nat.ltb_spec buffer_size 14) as [Habs|_]; [lia|].
  unfold int16_to_le. change (to_uint16 (Z.of_nat 9)) with 9.
  change MSG_TYPE_EVENT with 2.
  match goal with
  | |- context [uint16_to_le (crc16_usb ?b 12) ?b 12] => set (body := b)
  end.
  assert (Hbody : length body = length buffer) by (subst body; buffer_bounds).
  assert (Hcrc : crc16_usb (uint16_to_le (crc16_usb body 12) body 12) 12 =
                 crc16_usb body 12).
  { apply crc16_usb_ext. intros i Hi. apply read_uint16_to_le_ne; lia. }
  eexists. split; [reflexivity|].
  split; [rewrite length_uint16_to_le; exact Hbody|].
  unfold holds_le16. rewrite Hcrc.
  rewrite !(read_uint16_to_le (crc16_usb body 12)) by lia.
  cbn [Nat.eqb Nat.add].
  subst body.
  repeat split; try (read_writes; reflexivity).
  intros i Hi.
  repeat first [ rewrite lookup_uint16_to_le_ne by lia
               | rewrite lookup_write_ne by lia ].
  reflexivity.
Qed.

Lemma holds_le16_uint16 (b : list byte) (off : nat) (v : Z) :
  uint16_range v -> holds_le16 b off v ->
  uint16_le (read b off) (read b (off + 1)) = v.
Proof.
  intros Hv [Hlo Hhi]. rewrite Hlo, Hhi. now apply uint16_le_roundtrip.
Qed.

Lemma holds_le16_int16 (b : list byte) (off : nat) (v : Z) :
  int16_range v -> holds_le16 b off (to_uint16 v) ->
  sint16_le (read b off) (read b (off + 1)) = v.
Proof.
  intros Hv [Hlo Hhi]. rewrite Hlo, Hhi. now apply sint16_le_roundtrip.
Qed.

Lemma marshall_event_frame_too_small
  (e : EventPayload) (buffer : list byte) (buffer_size : nat) :
  (buffer_size < 14)%nat ->
  marshall_event_frame (Some e) (Some buffer) buffer_size =
    mkOutcome (-1) (Some buffer) [Buffer_too_small buffer_size 14].
Proof.
  intros Hsmall. unfold marshall_event_frame. cbv zeta.
  change sizeof_EventPayload with 9%nat. cbn [Nat.add].
  destruct (Nat.ltb_spec buffer_size 14) as [_|Habs]; [reflexivity|lia].
Qed.

(** The frame of a Preheating event (100 degrees, no remaining time,
    duration 600 = 0x0258, target 180 = 0x00B4) in a zeroed 20-byte buffer. *)
Example marshall_event_preheating :
  marshall_event_frame (Some event_preheating) (Some buffer_20) 20 =
    mkOutcome 14
      (Some [Byte.x02; Byte.x09; Byte.x00;
             Byte.x01; Byte.x64; Byte.x00; Byte.xff; Byte.xff;
             Byte.x58; Byte.x02; Byte.xb4; Byte.x00;
             Byte.x83; Byte.x56;
             Byte.x00; Byte.x00; Byte.x00; Byte.x00; Byte.x00; Byte.x00])
      [].
Proof. vm_compute. reflexivity. Qed.

(** C4.  Encoding a present event into a present buffer of [buffer_size]
    valid bytes fails (returns -1) exactly when [buffer_size] is under 14.
    Otherwise it returns 14 and the buffer holds 0x02 at offset 0, the
    payload size 9 little-endian at offsets 1-2, the nine payload bytes at
    offsets 3-11 (the state byte of the event, then the low and the high
    byte of each of its four 16-bit fields, in the order of the struct), and
    the CRC-16/USB of the first 12 bytes little-endian at offsets 12-13; the
    bytes from offset 14 on are left as they were. *)
Theorem marshall_event_frame_fails_iff
  (e : EventPayload) (buffer : list byte) (buffer_size : nat) :
  (buffer_size <= length buffer)%nat ->
  let r := marshall_event_frame (Some e) (Some buffer) buffer_size in
  (ret r = -1 <-> (buffer_size < 14)%nat) /\
  ((14 <= buffer_size)%nat ->
     ret r = 14 /\
     exists b : list byte,
       out r = Some b /\ length b = length buffer /\
       read b 0 = 0x02 /\
       uint16_le (read b 1) (read b 2) = 9 /\
       (read b 3 = ev_state e mod 256 /\
        (read b 4 = to_uint16 (ev_current_temperature e) mod 256 /\
         read b 5 = (to_uint16 (ev_current_temperature e) / 256) mod 256) /\
        (read b 6 = to_uint16 (ev_remaining_time e) mod 256 /\
         read b 7 = (to_uint16 (ev_remaining_time e) / 256) mod 256) /\
        (read b 8 = to_uint16 (ev_programmed_duration e) mod 256 /\
         read b 9 = (to_uint16 (ev_programmed_duration e) / 256) mod 256) /\
        (read b 10 = to_uint16 (ev_programmed_temperature e) mod 256 /\
         read b 11 = (to_uint16 (ev_programmed_temperature e) / 256) mod 256)) /\
       uint16_le (read b 12) (read b 13) = crc16_usb b (3 + 9) /\
       (forall i, (14 <= i)%nat -> b !! i = buffer !! i)).
Proof.
  intros Hsize r. subst r.
  destruct (Nat.lt_ge_cases buffer_size 14) as [Hsmall|Hbig].
  - rewrite marshall_event_frame_too_small by exact Hsmall. simpl.
    split; [tauto | lia].
  - destruct (marshall_event_frame_layout e buffer buffer_size Hsize Hbig)
      as (b & -> & Hlen & Htype & Hps & Hstate & Hcur & Hrem & Hdur & Htemp &
          Hcrc & Hrest).
    simpl. split; [split; [discriminate | lia]|].
    intros _. split; [reflexivity|].
    exists b.
    split; [reflexivity|]. split; [exact Hlen|]. split; [exact Htype|].
    split; [apply (holds_le16_uint16 b 1 9); [unfold uint16_range; lia | exact Hps]|].
    split; [exact (conj Hstate (conj Hcur (conj Hrem (conj Hdur Htemp))))|].
    split; [|exact Hrest].
    apply (holds_le16_uint16 b 12); [apply crc16_usb_range | exact Hcrc].
Qed.

Lemma marshall_event_frame_fails_iff_witness :
  (20 <= length buffer_20)%nat /\
  ret (marshall_event_frame (Some event_preheating) (Some buffer_20) 20) = 14.
Proof.
  assert (Hlen : (20 <= length buffer_20)%nat) by (simpl; lia).
  split; [exact Hlen|].
  apply (proj2 (marshall_event_frame_fails_iff event_preheating buffer_20 20%nat Hlen)).
  lia.
Defined.

Lemma event_preheating_wf : EventPayload_wf event_preheating.
Proof. unfold EventPayload_wf, uint8_range, int16_range; simpl; lia. Qed.

(** C8, counterexample.  For a Preheating event with programmed duration 600
    and programmed temperature 180, payload bytes 5-6 hold 600, not 180. *)
Lemma payload_in_data_model_order_fails : ~ payload_in_data_model_order.
Proof.
  intros Hclaim.
  destruct (Hclaim event_preheating buffer_20 20%nat event_preheating_wf)
    as (b & Hout & _ & _ & _ & Htemp & _); [simpl; lia | lia |].
  vm_compute in Hout. injection Hout as <-.
  vm_compute in Htemp. discriminate Htemp.
Qed.

(** C8, amended.  The payload holds the five event fields in the order of
    the [EventPayload] struct: the state (1 byte), then the current
    temperature, the remaining time, the programmed duration and the
    programmed temperature, each signed 16-bit little-endian. *)
Theorem marshall_event_frame_payload_order
  (e : EventPayload) (buffer : list byte) (buffer_size : nat) :
  EventPayload_wf e ->
  (buffer_size <= length buffer)%nat -> (14 <= buffer_size)%nat ->
  exists b : list byte,
    out (marshall_event_frame (Some e) (Some buffer) buffer_size) = Some b /\
    read b 3 = ev_state e /\
    sint16_le (read b 4) (read b 5) = ev_current_temperature e /\
    sint16_le (read b 6) (read b 7) = ev_remaining_time e /\
    sint16_le (read b 8) (read b 9) = ev_programmed_duration e /\
    sint16_le (read b 10) (read b 11) = ev_programmed_temperature e.
Proof.
  intros (Hs & Hc & Hr & Hd & Ht) Hsize Hbig.
  destruct (marshall_event_frame_layout e buffer buffer_size Hsize Hbig)
    as (b & -> & _ & _ & _ & Hstate & Hcur & Hrem & Hdur & Htemp & _).
  exists b. simpl. split; [reflexivity|].
  split; [rewrite Hstate; apply Z.mod_small; unfold uint8_range in Hs; lia|].
  repeat split.
  - exact (holds_le16_int16 b 4 _ Hc Hcur).
  - exact (holds_le16_int16 b 6 _ Hr Hrem).
  - exact (holds_le16_int16 b 8 _ Hd Hdur).
  - exact (holds_le16_int16 b 10 _ Ht Htemp).
Qed.

Lemma marshall_event_frame_payload_order_witness :
  exists b : list byte,
    out (marshall_event_frame (Some event_preheating) (Some buffer_20) 20) = Some b /\
    read b 3 = 1 /\
    sint16_le (read b 4) (read b 5) = 100 /\
    sint16_le (read b 6) (read b 7) = -1 /\
    sint16_le (read b 8) (read b 9) = 600 /\
    sint16_le (read b 10) (read b 11) = 180.
Proof.
  apply (marshall_event_frame_payload_order event_preheating buffer_20 20%nat).
  - unfold EventPayload_wf, uint8_range, int16_range; simpl; lia.
  - simpl; lia.
  - lia.
Defined.

(** ** How frame errors are reported *)

Lemma frame_wrong_type_only_fails (cmd : CommandPayload) :
  fails_for Wrong_message_type (Decode frame_wrong_type_only cmd).
Proof.
  split.
  - simpl. unfold frame_wrong_type. vm_compute. discriminate.
  - intros [] H; simpl in H; try reflexivity; exfalso.
    + unfold frame_undersized in H. simpl in H. lia.
    + apply H. vm_compute. reflexivity.
    + unfold frame_truncated in H.
      change (declared_payload_size frame_wrong_type_only) with 5 in H.
      simpl in H. lia.
    + apply H. vm_compute. reflexivity.
    + exact H.
Qed.

Lemma frame_wrong_crc_only_fails (cmd : CommandPayload) :
  fails_for Crc_mismatch (Decode frame_wrong_crc_only cmd).
Proof.
  split.
  - simpl. unfold frame_crc_mismatch. vm_compute. discriminate.
  - intros [] H; simpl in H; try reflexivity; exfalso.
    + unfold frame_undersized in H. simpl in H. lia.
    + apply H. vm_compute. reflexivity.
    + apply H. vm_compute. reflexivity.
    + unfold frame_truncated in H.
      change (declared_payload_size frame_wrong_crc_only) with 5 in H.
      simpl in H. lia.
    + exact H.
Qed.

(** C9, counterexample.  A frame whose only fault is its message type and a
    frame whose only fault is its CRC are both answered with -1 and an
    untouched command. *)
Lemma causes_distinguished_fails : ~ causes_distinguished.
Proof.
  intros Hclaim.
  apply (Hclaim (Decode frame_wrong_type_only cmd_stop)
                (Decode frame_wrong_crc_only cmd_stop)
                Wrong_message_type Crc_mismatch).
  - apply frame_wrong_type_only_fails.
  - apply frame_wrong_crc_only_fails.
  - discriminate.
  - vm_compute. reflexivity.
Qed.

(** C9, amended.  Every frame-error condition is reported to the caller by
    the same return value -1, with the object behind the output pointer left
    as it was.  The causes differ only in the line printed on [stderr]:
    nothing for an undersized input, and one kind of line for each of wrong
    message type, wrong payload size, CRC mismatch and undersized buffer. *)
Theorem frame_errors_share_return_value :
  (forall (data : list byte) (len : nat) (cmd : CommandPayload),
     (len <= length data)%nat ->
     let r := unmarshall_command_frame (Some data) len (Some cmd) in
     (frame_undersized len \/ frame_wrong_type data \/ frame_wrong_size data \/
      frame_truncated data len \/ frame_crc_mismatch data ->
      ret r = -1 /\ out r = Some cmd) /\
     (frame_undersized len -> stderr r = []) /\
     (~ frame_undersized len -> frame_wrong_type data ->
      stderr r = [Invalid_message_type (read data 0) 1]) /\
     (~ frame_undersized len -> ~ frame_wrong_type data -> frame_wrong_size data ->
      stderr r = [Invalid_payload_size (declared_payload_size data) 5]) /\
     (~ frame_undersized len -> ~ frame_wrong_type data -> ~ frame_wrong_size data ->
      ~ frame_truncated data len -> frame_crc_mismatch data ->
      stderr r = [CRC_mismatch (trailing_crc data) (recomputed_crc data)])) /\
  (forall (e : EventPayload) (buffer : list byte) (buffer_size : nat),
     (buffer_size <= length buffer)%nat ->
     let r := marshall_event_frame (Some e) (Some buffer) buffer_size in
     (buffer_size < 14)%nat ->
     ret r = -1 /\ out r = Some buffer /\
     stderr r = [Buffer_too_small buffer_size 14]).
Proof.
  split.
  - intros data len cmd _ r. subst r.
    destruct (unmarshall_command_frame_paths data len cmd)
      as [(H1 & ->) | [(N1 & H2 & ->) | [(N1 & N2 & H3 & ->) |
          [(N1 & N2 & N3 & N4 & H5 & ->) | (N1 & N2 & N3 & N4 & N5 & ->)]]]];
      simpl; repeat split; intros; try reflexivity; tauto.
  - intros e buffer buffer_size _ r Hsmall. subst r.
    rewrite marshall_event_frame_too_small by exact Hsmall.
    simpl. repeat split.
Qed.

Lemma frame_errors_share_return_value_witness :
  ret (unmarshall_command_frame (Some frame_wrong_crc_only) 10 (Some cmd_stop)) = -1 /\
  out (unmarshall_command_frame (Some frame_wrong_crc_only) 10 (Some cmd_stop)) =
    Some cmd_stop.
Proof.
  assert (Hlen : (10 <= length frame_wrong_crc_only)%nat) by (simpl; lia).
  apply (proj1 (proj1 frame_errors_share_return_value
                  frame_wrong_crc_only 10%nat cmd_stop Hlen)).
  right; right; right; right.
  unfold frame_crc_mismatch. vm_compute. discriminate.
Defined.

(** * Further properties of the frame codec *)

(** ** The little-endian helpers are inverse to each other *)

(** X1.  Writing a 16-bit value with [uint16_to_le] or [int16_to_le] at an
    offset inside the buffer and reading it back with [le_to_uint16] or
    [le_to_int16] gives the value converted to [uint16_t], respectively the
    [int16_t] value itself; the length of the buffer and every other byte
    stay as they were. *)
Theorem le16_write_read (v : Z) (bytes : list byte) (off : nat) :
  (off + 1 < length bytes)%nat ->
  le_to_uint16 (uint16_to_le v bytes off) off = to_uint16 v /\
  (int16_range v -> le_to_int16 (int16_to_le v bytes off) off = v) /\
  length (int16_to_le v bytes off) = length bytes /\
  (forall j, j <> off -> j <> (off + 1)%nat ->
     int16_to_le v bytes off !! j = bytes !! j /\
     uint16_to_le v bytes off !! j = bytes !! j).
Proof.
  intros Hoff. split; [|split; [|split]].
  - rewrite le_to_uint16_spec.
    rewrite read_uint16_to_le_lo, read_uint16_to_le_hi by exact Hoff.
    unfold to_uint16, uint16_le.
    Z.div_mod_to_equations. lia.
  - intros Hv. rewrite le_to_int16_spec. unfold int16_to_le.
    rewrite read_uint16_to_le_lo, read_uint16_to_le_hi by exact Hoff.
    now apply sint16_le_roundtrip.
  - unfold int16_to_le. apply length_uint16_to_le.
  - intros j H1 H2. unfold int16_to_le.
    now rewrite !lookup_uint16_to_le_ne.
Qed.

Lemma le16_write_read_witness :
  le_to_uint16 (uint16_to_le 0xB4C8 buffer_20 12) 12 = 0xB4C8 /\
  le_to_int16 (int16_to_le (-10) buffer_20 4) 4 = -10.
Proof.
  split.
  - apply (proj1 (le16_write_read 0xB4C8 buffer_20 12 ltac:(simpl; lia))).
  - apply (proj1 (proj2 (le16_write_read (-10) buffer_20 4 ltac:(simpl; lia)))).
    unfold int16_range. lia.
Defined.

(** ** What the decoder looks at, accepts and hands out *)

(** X2.  The decoder looks at the first ten bytes only: on two buffers of at
    least ten bytes that agree there it gives the same result, whatever
    follows and whatever the lengths are.  Bytes after a 10-byte frame are
    neither checked nor reported. *)
Theorem unmarshall_command_frame_first_ten
  (d1 d2 : list byte) (len1 len2 : nat) (cmd : CommandPayload) :
  (10 <= len1)%nat -> (10 <= len2)%nat ->
  (forall i, (i < 10)%nat -> read d1 i = read d2 i) ->
  unmarshall_command_frame (Some d1) len1 (Some cmd) =
  unmarshall_command_frame (Some d2) len2 (Some cmd).
Proof.
  intros H1 H2 R.
  unfold unmarshall_command_frame. cbv zeta.
  rewrite !le_to_int16_spec, !le_to_uint16_spec.
  change (Z.of_nat sizeof_CommandPayload) with 5.
  change sizeof_CommandPayload with 5%nat.
  change (1 + 1)%nat with 2%nat.
  destruct (Nat.ltb_spec len1 10) as [Habs|_]; [lia|].
  destruct (Nat.ltb_spec len2 10) as [Habs|_]; [lia|].
  rewrite (R 0%nat), (R 1%nat), (R 2%nat) by lia.
  destruct (Z.eqb_spec (read d2 0) MSG_TYPE_COMMAND) as [_|_];
    simpl negb; cbv iota; [|reflexivity].
  destruct (Z.eqb_spec (uint16_le (read d2 1) (read d2 2)) 5) as [->|_];
    simpl negb; cbv iota; [|reflexivity].
  change (Z.to_nat 5) with 5%nat. cbn [Nat.add].
  destruct (Nat.ltb_spec len1 10) as [Habs|_]; [lia|].
  destruct (Nat.ltb_spec len2 10) as [Habs|_]; [lia|].
  rewrite (R 3%nat), (R 4%nat), (R 5%nat), (R 6%nat), (R 7%nat),
    (R 8%nat), (R 9%nat) by lia.
  rewrite (crc16_usb_ext d1 d2 8) by (intros i Hi; apply R; lia).
  reflexivity.
Qed.

Lemma unmarshall_command_frame_first_ten_witness :
  unmarshall_command_frame
    (Some (frame_start_200_480 ++ [Byte.xde; Byte.xad])) 12 (Some cmd_stop) =
  unmarshall_command_frame (Some frame_start_200_480) 10 (Some cmd_stop).
Proof.
  apply unmarshall_command_frame_first_ten; [lia | lia |].
  intros i Hi. do 10 (destruct i as [|i]; [reflexivity|]). lia.
Defined.

(** What the decoder hands out has the values of its C types. *)
Lemma sint16_le_range (lo hi : Z) :
  0 <= lo < 256 -> 0 <= hi < 256 -> int16_range (sint16_le lo hi).
Proof.
  unfold int16_range, sint16_le, uint16_le. intros Hlo Hhi.
  destruct (Z.ltb_spec (lo + 256 * hi) 32768); lia.
Qed.

Lemma payload_command_wf (data : list byte) : CommandPayload_wf (payload_command data).
Proof.
  unfold CommandPayload_wf, payload_command, uint8_range; simpl.
  pose proof (read_range data 3).
  repeat split; try lia; apply sint16_le_range; apply read_range.
Qed.

Lemma unmarshall_command_frame_out_wf
  (data : list byte) (len : nat) (cmd c : CommandPayload) :
  CommandPayload_wf cmd ->
  out (unmarshall_command_frame (Some data) len (Some cmd)) = Some c ->
  CommandPayload_wf c.
Proof.
  intros Hcmd.
  destruct (unmarshall_command_frame_paths data len cmd)
    as [(_ & ->) | [(_ & _ & ->) | [(_ & _ & _ & ->) |
        [(_ & _ & _ & _ & _ & ->) | (_ & _ & _ & _ & _ & ->)]]]];
    simpl; intros [= <-]; try exact Hcmd.
  apply payload_command_wf.
Qed.

(** The layout of [command_frame]. *)
Lemma command_frame_layout (c : CommandPayload) :
  let f := command_frame c in
  length f = 10%nat /\
  read f 0 = 1 /\ holds_le16 f 1 5 /\
  read f 3 = action c mod 256 /\
  holds_le16 f 4 (to_uint16 (temperature c)) /\
  holds_le16 f 6 (to_uint16 (duration c)) /\
  holds_le16 f 8 (crc16_usb f 8).
Proof.
  unfold command_frame. cbv zeta. unfold int16_to_le.
  change MSG_TYPE_COMMAND with 1.
  match goal with
  | |- context [write (write ?b 8 (Z.land ?crc 255)) 9 _] =>
      change (write (write b 8 (Z.land crc 255)) 9 (Z.land (Z.shiftr crc 8) 255))
        with (uint16_to_le crc b 8);
      set (body := b)
  end.
  assert (Hbody : length body = 10%nat).
  { subst body.
    repeat first [rewrite length_uint16_to_le | rewrite length_write].
    reflexivity. }
  assert (Hcrc : crc16_usb (uint16_to_le (crc16_usb body 8) body 8) 8 =
                 crc16_usb body 8).
  { apply crc16_usb_ext. intros i Hi. apply read_uint16_to_le_ne; lia. }
  split; [rewrite length_uint16_to_le; exact Hbody|].
  unfold holds_le16. rewrite Hcrc.
  rewrite !(read_uint16_to_le (crc16_usb body 8)) by lia.
  cbn [Nat.eqb Nat.add].
  subst body.
  repeat split;
    repeat first
      [ rewrite read_uint16_to_le
          by (repeat first [rewrite length_uint16_to_le | rewrite length_write];
              simpl; lia)
      | rewrite read_write
          by (repeat first [rewrite length_uint16_to_le | rewrite length_write];
              simpl; lia) ];
    cbn [Nat.eqb Nat.add]; reflexivity.
Qed.

(** X3.  Every command has a frame that decodes to it: for a command with
    the values of its C types, the ten bytes built as the unit tests build
    them (type 0x01, size 5, action, temperature and duration little-endian,
    CRC-16/USB of the first eight bytes little-endian) are accepted, and the
    command decoded is the one encoded. *)
Theorem command_frame_decodes (c cmd : CommandPayload) :
  CommandPayload_wf c ->
  unmarshall_command_frame (Some (command_frame c)) 10 (Some cmd) =
    mkOutcome 0 (Some c) [].
Proof.
  intros (Ha & Ht & Hd).
  destruct (command_frame_layout c)
    as (Hlen & Htype & Hsize & Hact & Htemp & Hdur & Hcrc).
  assert (Hps : declared_payload_size (command_frame c) = 5).
  { unfold declared_payload_size.
    apply (holds_le16_uint16 _ 1 5); [unfold uint16_range; lia | exact Hsize]. }
  assert (Hmatch : trailing_crc (command_frame c) = recomputed_crc (command_frame c)).
  { unfold trailing_crc, recomputed_crc. rewrite Hps.
    change (3 + Z.to_nat 5)%nat with 8%nat.
    apply (holds_le16_uint16 _ 8); [apply crc16_usb_range | exact Hcrc]. }
  destruct (unmarshall_command_frame_paths (command_frame c) 10 cmd)
    as [(H1 & _) | [(_ & H2 & _) | [(_ & _ & H3 & _) |
        [(_ & _ & _ & _ & H5 & _) | (_ & _ & _ & _ & _ & ->)]]]].
  - unfold frame_undersized in H1. lia.
  - unfold frame_wrong_type in H2. congruence.
  - unfold frame_wrong_size in H3. congruence.
  - unfold frame_crc_mismatch in H5. congruence.
  - f_equal. f_equal. unfold payload_command.
    rewrite Hact, Z.mod_small by (unfold uint8_range in Ha; lia).
    pose proof (holds_le16_int16 _ 4 _ Ht Htemp) as E1.
    pose proof (holds_le16_int16 _ 6 _ Hd Hdur) as E2.
    change (4 + 1)%nat with 5%nat in E1. change (6 + 1)%nat with 7%nat in E2.
    rewrite E1, E2. now destruct c.
Qed.

Lemma command_frame_decodes_witness :
  unmarshall_command_frame (Some (command_frame (cmd_start 200 480))) 10
                           (Some cmd_stop) =
    mkOutcome 0 (Some (cmd_start 200 480)) [].
Proof.
  apply command_frame_decodes.
  unfold CommandPayload_wf, uint8_range, int16_range; simpl.
  unfold ACTION_START. lia.
Defined.

(** X4.  An event frame is never taken for a command: whatever the encoder
    writes is rejected by the decoder for its message type (0x02, not 0x01),
    with the command left as it was. *)
Theorem event_frame_not_a_command
  (e : EventPayload) (buffer b : list byte) (buffer_size len : nat)
  (cmd : CommandPayload) :
  (buffer_size <= length buffer)%nat -> (14 <= buffer_size)%nat ->
  out (marshall_event_frame (Some e) (Some buffer) buffer_size) = Some b ->
  (10 <= len)%nat ->
  unmarshall_command_frame (Some b) len (Some cmd) =
    mkOutcome (-1) (Some cmd) [Invalid_message_type 2 1].
Proof.
  intros Hsize Hbig Hout Hlen.
  destruct (marshall_event_frame_layout e buffer buffer_size Hsize Hbig)
    as (b' & Hrun & _ & Htype & _).
  rewrite Hrun in Hout. simpl in Hout. injection Hout as ->.
  destruct (unmarshall_command_frame_paths b len cmd)
    as [(H1 & _) | [(_ & _ & E) | [(_ & N2 & _) |
        [(_ & N2 & _) | (_ & N2 & _)]]]].
  - unfold frame_undersized in H1. lia.
  - rewrite E, Htype. reflexivity.
  - exfalso. apply N2. unfold frame_wrong_type. rewrite Htype. discriminate.
  - exfalso. apply N2. unfold frame_wrong_type. rewrite Htype. discriminate.
  - exfalso. apply N2. unfold frame_wrong_type. rewrite Htype. discriminate.
Qed.

Lemma event_frame_not_a_command_witness :
  exists b : list byte,
    out (marshall_event_frame (Some event_preheating) (Some buffer_20) 20) = Some b /\
    unmarshall_command_frame (Some b) 14 (Some cmd_stop) =
      mkOutcome (-1) (Some cmd_stop) [Invalid_message_type 2 1].
Proof.
  eexists. split; [vm_compute; reflexivity|].
  apply (event_frame_not_a_command event_preheating buffer_20 _ 20%nat 14%nat);
    [simpl; lia | lia | vm_compute; reflexivity | lia].
Defined.

(** ** The CRC and bit errors *)

Lemma to_uint16_lxor (a b : Z) :
  to_uint16 (Z.lxor a b) = Z.lxor (to_uint16 a) (to_uint16 b).
Proof.
  unfold to_uint16. change 65536 with (2 ^ 16).
  rewrite <- !Z.land_ones by lia.
  apply Z.bits_inj'; intros n _.
  rewrite !Z.lxor_spec, !Z.land_spec, Z.lxor_spec.
  destruct (Z.testbit a n), (Z.testbit b n), (Z.testbit (Z.ones 16) n); reflexivity.
Qed.

Lemma to_uint16_idem (a : Z) : to_uint16 (to_uint16 a) = to_uint16 a.
Proof. unfold to_uint16. apply Z.mod_mod. lia. Qed.

Lemma land_1_odd (c : Z) : (Z.land c 1 =? 0) = negb (Z.odd c).
Proof.
  change 1 with (Z.ones 1) at 1. rewrite Z.land_ones by lia.
  change (2 ^ 1) with 2. rewrite Zmod_odd.
  now destruct (Z.odd c).
Qed.

(** One bit round without the branch. *)
Lemma crc16_bit_alt (c : Z) :
  crc16_bit c = to_uint16 (Z.lxor (Z.shiftr c 1) (if Z.odd c then 0xA001 else 0)).
Proof.
  unfold crc16_bit. rewrite land_1_odd, negb_involutive.
  destruct (Z.odd c); [reflexivity|]. now rewrite Z.lxor_0_r.
Qed.

Lemma odd_lxor (a b : Z) : Z.odd (Z.lxor a b) = xorb (Z.odd a) (Z.odd b).
Proof. rewrite <- !Z.bit0_odd. apply Z.lxor_spec. Qed.

Lemma crc16_bit_lxor (a b : Z) :
  crc16_bit (Z.lxor a b) = Z.lxor (crc16_bit a) (crc16_bit b).
Proof.
  rewrite !crc16_bit_alt, <- to_uint16_lxor. f_equal.
  rewrite Z.shiftr_lxor, odd_lxor.
  set (x := Z.shiftr a 1). set (y := Z.shiftr b 1).
  destruct (Z.odd a), (Z.odd b); simpl xorb; cbv iota;
    rewrite ?Z.lxor_0_r; apply Z.bits_inj'; intros n _;
    rewrite ?Z.lxor_spec;
    destruct (Z.testbit x n), (Z.testbit y n), (Z.testbit 40961 n); reflexivity.
Qed.

Lemma crc16_bits_lxor (n : nat) (a b : Z) :
  Nat.iter n crc16_bit (Z.lxor a b) =
  Z.lxor (Nat.iter n crc16_bit a) (Nat.iter n crc16_bit b).
Proof.
  induction n as [|n IH]; simpl; [reflexivity|].
  rewrite IH. apply crc16_bit_lxor.
Qed.

Lemma crc16_byte_lxor (c1 c2 b1 b2 : Z) :
  crc16_byte (Z.lxor c1 c2) (Z.lxor b1 b2) =
  Z.lxor (crc16_byte c1 b1) (crc16_byte c2 b2).
Proof.
  unfold crc16_byte. rewrite <- crc16_bits_lxor, <- to_uint16_lxor.
  do 2 f_equal.
  apply Z.bits_inj'; intros n _. rewrite !Z.lxor_spec.
  destruct (Z.testbit c1 n), (Z.testbit c2 n), (Z.testbit b1 n), (Z.testbit b2 n);
    reflexivity.
Qed.

Lemma crc16_loop_lxor (fx f1 f2 : nat -> Z) (idx : list nat) (c1 c2 : Z) :
  (forall i, In i idx -> fx i = Z.lxor (f1 i) (f2 i)) ->
  crc16_loop fx idx (Z.lxor c1 c2) =
  Z.lxor (crc16_loop f1 idx c1) (crc16_loop f2 idx c2).
Proof.
  unfold crc16_loop. revert c1 c2.
  induction idx as [|i idx IH]; intros c1 c2 Hx; simpl; [reflexivity|].
  rewrite (Hx i) by now left.
  rewrite crc16_byte_lxor. apply IH. intros j Hj. apply Hx. now right.
Qed.

(** The CRC of a buffer XORed with a pattern. *)
Lemma crc16_usb_affine (dx d : list byte) (e : nat -> Z) (n : nat) :
  (forall i, (i < n)%nat -> read dx i = Z.lxor (read d i) (e i)) ->
  crc16_usb dx n = Z.lxor (crc16_usb d n) (crc16_syndrome e n).
Proof.
  intros Hx. unfold crc16_usb, crc16_syndrome.
  change (fold_left (fun crc i => crc16_byte crc (read dx i)) (seq 0 n) 65535)
    with (crc16_loop (read dx) (seq 0 n) (Z.lxor 65535 0)).
  change (fold_left (fun crc i => crc16_byte crc (read d i)) (seq 0 n) 65535)
    with (crc16_loop (read d) (seq 0 n) 65535).
  rewrite (crc16_loop_lxor (read dx) (read d) e)
    by (intros i Hi; apply Hx; apply in_seq in Hi; lia).
  rewrite <- to_uint16_lxor. f_equal.
  rewrite !Z.lxor_assoc. f_equal. apply Z.lxor_comm.
Qed.

(** X5.  The CRC is affine over XOR: if the bytes of a buffer are those of
    another XORed with an error pattern, its CRC-16/USB is the CRC of the
    other XORed with a value that depends on the pattern only (the register
    the pattern leaves when the computation starts from 0). *)
Theorem crc16_usb_lxor (dx d : list byte) (e : nat -> Z) (n : nat) :
  (forall i, (i < n)%nat -> read dx i = Z.lxor (read d i) (e i)) ->
  crc16_usb dx n = Z.lxor (crc16_usb d n) (crc16_syndrome e n).
Proof. exact (crc16_usb_affine dx d e n). Qed.

Lemma crc16_usb_lxor_witness :
  crc16_usb (Byte.x30 :: tail ascii_123456789) 9 =
    Z.lxor (crc16_usb ascii_123456789 9)
           (crc16_syndrome (fun i => if (i =? 0)%nat then 1 else 0) 9).
Proof.
  apply crc16_usb_lxor.
  intros i Hi. do 9 (destruct i as [|i]; [reflexivity|]). lia.
Defined.

(** *** Parity of the CRC register *)

Lemma parity_bits_lxor (l : list nat) (a b : Z) :
  fold_right (fun i acc => xorb (Z.testbit (Z.lxor a b) (Z.of_nat i)) acc) false l =
  xorb (fold_right (fun i acc => xorb (Z.testbit a (Z.of_nat i)) acc) false l)
       (fold_right (fun i acc => xorb (Z.testbit b (Z.of_nat i)) acc) false l).
Proof.
  induction l as [|i l IH]; simpl; [reflexivity|].
  rewrite IH, Z.lxor_spec.
  destruct (Z.testbit a (Z.of_nat i)), (Z.testbit b (Z.of_nat i)),
    (fold_right (fun i acc => xorb (Z.testbit a (Z.of_nat i)) acc) false l),
    (fold_right (fun i acc => xorb (Z.testbit b (Z.of_nat i)) acc) false l);
    reflexivity.
Qed.

Lemma parity16_lxor (a b : Z) :
  parity16 (Z.lxor a b) = xorb (parity16 a) (parity16 b).
Proof. apply parity_bits_lxor. Qed.

(** Parity only depends on the bits below 16. *)
Lemma parity16_ext (a b : Z) :
  (forall n, 0 <= n < 16 -> Z.testbit a n = Z.testbit b n) ->
  parity16 a = parity16 b.
Proof.
  intros Hbits. unfold parity16.
  assert (Hin : forall i, In i (seq 0 16) -> (i < 16)%nat)
    by (intros i Hi; apply in_seq in Hi; lia).
  induction (seq 0 16) as [|i l IH]; simpl; [reflexivity|].
  rewrite Hbits by (specialize (Hin i (or_introl eq_refl)); lia).
  rewrite IH; [reflexivity|]. intros j Hj. apply Hin. now right.
Qed.

Lemma parity16_to_uint16 (a : Z) : parity16 (to_uint16 a) = parity16 a.
Proof.
  apply parity16_ext. intros n Hn. unfold to_uint16.
  change 65536 with (2 ^ 16). apply Z.mod_pow2_bits_low. lia.
Qed.

Lemma testbit_uint16_high (c n : Z) : uint16_range c -> 16 <= n -> Z.testbit c n = false.
Proof.
  unfold uint16_range. intros Hc Hn.
  rewrite <- (Z.mod_small c (2 ^ 16)) by (change (2 ^ 16) with 65536; lia).
  apply Z.mod_pow2_bits_high. lia.
Qed.

(** Evaluates the closed bit indices in the goal. *)
Ltac bit_indices :=
  repeat match goal with
    | |- context [Z.testbit _ ?i] =>
        lazymatch i with
        | Z0 => fail
        | Zpos _ => fail
        | Zneg _ => fail
        | _ => let v := eval vm_compute in i in change i with v
        end
    end.

(** Shifting a 16-bit value right drops its lowest bit. *)
Lemma parity16_shiftr (c : Z) :
  uint16_range c -> parity16 (Z.shiftr c 1) = xorb (parity16 c) (Z.odd c).
Proof.
  intros Hc. unfold parity16. cbn [fold_right seq].
  rewrite !Z.shiftr_spec by lia. bit_indices.
  rewrite (testbit_uint16_high c 16 Hc) by lia.
  rewrite <- Z.bit0_odd.
  repeat match goal with
    | |- context [Z.testbit c ?n] =>
        let b := fresh "b" in
        generalize (Z.testbit c n); intros b
    end.
  btauto.
Qed.

Lemma crc16_bit_range (c : Z) : uint16_range (crc16_bit c).
Proof. rewrite crc16_bit_alt. apply to_uint16_range. Qed.

(** A bit round keeps the parity of the register: the bit shifted out and
    the three bits of the polynomial cancel. *)
Lemma parity16_crc16_bit (c : Z) :
  uint16_range c -> parity16 (crc16_bit c) = parity16 c.
Proof.
  intros Hc. rewrite crc16_bit_alt, parity16_to_uint16, parity16_lxor.
  rewrite parity16_shiftr by exact Hc.
  destruct (Z.odd c); [change (parity16 40961) with true
                      | change (parity16 0) with false];
    now destruct (parity16 c).
Qed.

Lemma parity16_crc16_bits (n : nat) (c : Z) :
  uint16_range c ->
  uint16_range (Nat.iter n crc16_bit c) /\
  parity16 (Nat.iter n crc16_bit c) = parity16 c.
Proof.
  intros Hc. induction n as [|n [IHr IHp]]; simpl; [now split|].
  split; [apply crc16_bit_range|].
  now rewrite parity16_crc16_bit.
Qed.

Lemma parity16_crc16_byte (c b : Z) :
  parity16 (crc16_byte c b) = xorb (parity16 c) (parity16 b).
Proof.
  unfold crc16_byte.
  rewrite (proj2 (parity16_crc16_bits 8 _ (to_uint16_range _))).
  now rewrite parity16_to_uint16, parity16_lxor.
Qed.

Lemma parity16_crc16_loop (e : nat -> Z) (idx : list nat) (c : Z) :
  parity16 (crc16_loop e idx c) =
  xorb (parity16 c) (fold_right (fun k acc => xorb (parity16 (e k)) acc) false idx).
Proof.
  unfold crc16_loop. revert c.
  induction idx as [|i idx IH]; intros c; simpl.
  - now destruct (parity16 c).
  - rewrite IH, parity16_crc16_byte.
    destruct (parity16 c), (parity16 (e i)),
      (fold_right (fun k acc => xorb (parity16 (e k)) acc) false idx); reflexivity.
Qed.

Lemma testbit_uint8_high (c n : Z) : 0 <= c < 256 -> 8 <= n -> Z.testbit c n = false.
Proof.
  intros Hc Hn.
  rewrite <- (Z.mod_small c (2 ^ 8)) by (change (2 ^ 8) with 256; lia).
  apply Z.mod_pow2_bits_high. lia.
Qed.

Lemma uint16_le_lxor_shiftl (lo hi : Z) :
  0 <= lo < 256 -> uint16_le lo hi = Z.lxor lo (Z.shiftl hi 8).
Proof.
  intros Hlo. unfold uint16_le.
  rewrite <- lor_low_high by exact Hlo.
  symmetry. apply Z.lxor_lor. now apply land_low_high.
Qed.

Lemma parity16_shiftl8 (hi : Z) :
  0 <= hi < 256 -> parity16 (Z.shiftl hi 8) = parity16 hi.
Proof.
  intros Hhi. unfold parity16. cbn [fold_right seq].
  rewrite !Z.shiftl_spec by lia. bit_indices.
  repeat match goal with
    | |- context [Z.testbit hi ?n] => rewrite (Z.testbit_neg_r hi n) by lia
    | |- context [Z.testbit hi ?n] => rewrite (testbit_uint8_high hi n Hhi) by lia
    end.
  btauto.
Qed.

Lemma parity16_uint16_le (lo hi : Z) :
  0 <= lo < 256 -> 0 <= hi < 256 ->
  parity16 (uint16_le lo hi) = xorb (parity16 lo) (parity16 hi).
Proof.
  intros Hlo Hhi.
  rewrite uint16_le_lxor_shiftl by exact Hlo.
  now rewrite parity16_lxor, parity16_shiftl8.
Qed.

(** *** Inverted bits *)

Lemma lxor_byte_range (a b : Z) :
  0 <= a < 256 -> 0 <= b < 256 -> 0 <= Z.lxor a b < 256.
Proof.
  intros Ha Hb.
  assert (E : Z.lxor a b = Z.lxor a b mod 2 ^ 8).
  { rewrite <- Z.land_ones by lia.
    apply Z.bits_inj'; intros n Hn.
    rewrite Z.land_spec, Z.lxor_spec.
    destruct (Z.lt_ge_cases n 8) as [Hlt|Hge].
    - rewrite Z.ones_spec_low by lia. now rewrite andb_true_r.
    - rewrite (testbit_uint8_high a n Ha Hge), (testbit_uint8_high b n Hb Hge).
      reflexivity. }
  rewrite E. change (2 ^ 8) with 256. apply Z.mod_pos_bound. lia.
Qed.

Lemma pow2_byte_range (j : Z) : 0 <= j < 8 -> 0 <= 2 ^ j < 256.
Proof.
  intros Hj. split; [apply Z.pow_nonneg; lia|].
  apply Z.lt_le_trans with (2 ^ 8); [|change (2 ^ 8) with 256; lia].
  apply Z.pow_lt_mono_r; lia.
Qed.

Lemma length_flip_bit (data : list byte) (p : nat * Z) :
  length (flip_bit data p) = length data.
Proof. unfold flip_bit. apply length_write. Qed.

Lemma length_flip_bits (data : list byte) (ps : list (nat * Z)) :
  length (flip_bits data ps) = length data.
Proof.
  unfold flip_bits. revert data.
  induction ps as [|p ps IH]; intros data; simpl; [reflexivity|].
  now rewrite IH, length_flip_bit.
Qed.

Lemma read_flip_bit (data : list byte) (p : nat * Z) (k : nat) :
  (fst p < length data)%nat -> 0 <= snd p < 8 ->
  read (flip_bit data p) k =
    Z.lxor (read data k) (if (fst p =? k)%nat then 2 ^ snd p else 0).
Proof.
  intros Hi Hj. unfold flip_bit. rewrite read_write by exact Hi.
  rewrite (Nat.eqb_sym k (fst p)).
  destruct (Nat.eqb_spec (fst p) k) as [<-|_].
  - apply Z.mod_small.
    apply lxor_byte_range; [apply read_range | now apply pow2_byte_range].
  - now rewrite Z.lxor_0_r.
Qed.

Lemma bit_pattern_acc (ps : list (nat * Z)) (k : nat) (acc : Z) :
  fold_left (fun acc p => if (fst p =? k)%nat then Z.lxor acc (2 ^ snd p) else acc)
            ps acc =
  Z.lxor acc (bit_pattern ps k).
Proof.
  unfold bit_pattern. revert acc.
  induction ps as [|p ps IH]; intros acc; simpl.
  - now rewrite Z.lxor_0_r.
  - rewrite (IH (if (fst p =? k)%nat then Z.lxor acc (2 ^ snd p) else acc)).
    rewrite (IH (if (fst p =? k)%nat then Z.lxor 0 (2 ^ snd p) else 0)).
    destruct (fst p =? k)%nat.
    + now rewrite Z.lxor_0_l, Z.lxor_assoc.
    + now rewrite Z.lxor_0_l.
Qed.

Lemma bit_pattern_cons (p : nat * Z) (ps : list (nat * Z)) (k : nat) :
  bit_pattern (p :: ps) k =
  Z.lxor (if (fst p =? k)%nat then 2 ^ snd p else 0) (bit_pattern ps k).
Proof.
  unfold bit_pattern at 1. simpl. rewrite bit_pattern_acc.
  destruct (fst p =? k)%nat; now rewrite ?Z.lxor_0_l.
Qed.

Lemma bit_pattern_range (ps : list (nat * Z)) (k : nat) :
  Forall (fun p => 0 <= snd p < 8) ps -> 0 <= bit_pattern ps k < 256.
Proof.
  induction 1 as [|p ps Hp _ IH]; [unfold bit_pattern; simpl; lia|].
  rewrite bit_pattern_cons. apply lxor_byte_range; [|exact IH].
  destruct (fst p =? k)%nat; [now apply pow2_byte_range | lia].
Qed.

Lemma read_flip_bits (data : list byte) (ps : list (nat * Z)) (k : nat) :
  Forall (fun p => (fst p < length data)%nat /\ 0 <= snd p < 8) ps ->
  read (flip_bits data ps) k = Z.lxor (read data k) (bit_pattern ps k).
Proof.
  unfold flip_bits. revert data.
  induction ps as [|p ps IH]; intros data Hps; simpl.
  - unfold bit_pattern. simpl. now rewrite Z.lxor_0_r.
  - inversion Hps as [|? ? [Hi Hj] Hrest]; subst.
    rewrite IH.
    + rewrite read_flip_bit, bit_pattern_cons by assumption.
      now rewrite Z.lxor_assoc.
    + rewrite length_flip_bit. exact Hrest.
Qed.

Lemma pattern_parity_lxor (e1 e2 : nat -> Z) :
  pattern_parity (fun k => Z.lxor (e1 k) (e2 k)) =
  xorb (pattern_parity e1) (pattern_parity e2).
Proof.
  unfold pattern_parity.
  induction (seq 0 10) as [|k l IH]; simpl; [reflexivity|].
  rewrite IH, parity16_lxor.
  destruct (parity16 (e1 k)), (parity16 (e2 k)),
    (fold_right (fun k acc => xorb (parity16 (e1 k)) acc) false l),
    (fold_right (fun k acc => xorb (parity16 (e2 k)) acc) false l); reflexivity.
Qed.

Lemma pattern_parity_ext (e1 e2 : nat -> Z) :
  (forall k, e1 k = e2 k) -> pattern_parity e1 = pattern_parity e2.
Proof.
  intros He. unfold pattern_parity.
  induction (seq 0 10) as [|k l IH]; simpl; [reflexivity|].
  now rewrite IH, He.
Qed.

Lemma frame_bit_cases (p : nat * Z) :
  frame_bit p -> In p frame_bits.
Proof.
  destruct p as [i j]. unfold frame_bit, frame_bits. simpl fst. simpl snd.
  intros [Hi Hj]. apply in_prod.
  - apply in_seq. lia.
  - assert (Hc : j = 0 \/ j = 1 \/ j = 2 \/ j = 3 \/ j = 4 \/ j = 5 \/ j = 6 \/ j = 7)
      by lia.
    simpl. intuition auto.
Qed.

Lemma pattern_parity_single (p : nat * Z) :
  frame_bit p ->
  pattern_parity (fun k => if (fst p =? k)%nat then 2 ^ snd p else 0) = true.
Proof.
  intros Hp. apply frame_bit_cases in Hp. revert p Hp.
  apply List.Forall_forall. unfold frame_bits. simpl list_prod.
  repeat (apply List.Forall_cons; [vm_compute; reflexivity|]). apply List.Forall_nil.
Qed.

Lemma pattern_parity_bits (ps : list (nat * Z)) :
  Forall frame_bit ps -> pattern_parity (bit_pattern ps) = Nat.odd (length ps).
Proof.
  induction 1 as [|p ps Hp _ IH]; [reflexivity|].
  rewrite (pattern_parity_ext _ _ (bit_pattern_cons p ps)).
  rewrite pattern_parity_lxor, IH, pattern_parity_single by exact Hp.
  cbn [length]. rewrite Nat.odd_succ, <- Nat.negb_odd.
  now destruct (Nat.odd (length ps)).
Qed.

Lemma frame_bits_bytes (ps : list (nat * Z)) :
  Forall frame_bit ps -> Forall (fun p => 0 <= snd p < 8) ps.
Proof. apply List.Forall_impl. now intros p [_ Hj]. Qed.

Lemma frame_syndrome_parity (ps : list (nat * Z)) :
  Forall frame_bit ps ->
  parity16 (frame_syndrome ps) = pattern_parity (bit_pattern ps).
Proof.
  intros Hps. apply frame_bits_bytes in Hps.
  unfold frame_syndrome, crc16_syndrome.
  rewrite parity16_lxor, parity16_to_uint16, parity16_crc16_loop.
  rewrite parity16_uint16_le by now apply bit_pattern_range.
  unfold pattern_parity. cbn [fold_right seq].
  change (parity16 0) with false.
  btauto.
Qed.

Lemma uint16_le_lxor (a b c d : Z) :
  0 <= a < 256 -> 0 <= c < 256 ->
  uint16_le (Z.lxor a c) (Z.lxor b d) = Z.lxor (uint16_le a b) (uint16_le c d).
Proof.
  intros Ha Hc.
  rewrite !uint16_le_lxor_shiftl by (try apply lxor_byte_range; assumption).
  rewrite Z.shiftl_lxor.
  apply Z.bits_inj'; intros n _. rewrite !Z.lxor_spec.
  destruct (Z.testbit a n), (Z.testbit c n), (Z.testbit (Z.shiftl b 8) n),
    (Z.testbit (Z.shiftl d 8) n); reflexivity.
Qed.

(** A valid frame with bits inverted according to a pattern is rejected
    whenever the pattern does not change the recomputed CRC and the carried
    CRC by the same amount. *)
Lemma flipped_frame_rejected
  (data : list byte) (len : nat) (cmd : CommandPayload) (ps : list (nat * Z)) :
  (10 <= len)%nat -> (len <= length data)%nat ->
  ret (unmarshall_command_frame (Some data) len (Some cmd)) = 0 ->
  Forall frame_bit ps ->
  frame_syndrome ps <> 0 ->
  ret (unmarshall_command_frame (Some (flip_bits data ps)) len (Some cmd)) = -1.
Proof.
  intros Hlen Hdata Hok Hps Hsyn.
  assert (Hreads : forall k, read (flip_bits data ps) k =
                             Z.lxor (read data k) (bit_pattern ps k)).
  { intros k. apply read_flip_bits.
    revert Hps. apply List.Forall_impl. intros p [Hi Hj]. split; [lia | exact Hj]. }
  pose proof (frame_bits_bytes ps Hps) as Hbytes.
  destruct (unmarshall_command_frame_paths data len cmd)
    as [(_ & E) | [(_ & _ & E) | [(_ & _ & _ & E) |
        [(_ & _ & _ & _ & _ & E) | (_ & _ & N3 & _ & N5 & _)]]]];
    try (rewrite E in Hok; discriminate Hok).
  destruct (unmarshall_command_frame_paths (flip_bits data ps) len cmd)
    as [(_ & ->) | [(_ & _ & ->) | [(_ & _ & _ & ->) |
        [(_ & _ & _ & _ & _ & ->) | (_ & _ & M3 & _ & M5 & _)]]]];
    try reflexivity.
  exfalso. apply Hsyn.
  unfold frame_wrong_size in N3, M3. unfold frame_crc_mismatch in N5, M5.
  assert (S : declared_payload_size data = 5)
    by (destruct (Z.eq_dec (declared_payload_size data) 5); tauto).
  assert (S' : declared_payload_size (flip_bits data ps) = 5)
    by (destruct (Z.eq_dec (declared_payload_size (flip_bits data ps)) 5); tauto).
  assert (C : trailing_crc data = recomputed_crc data)
    by (destruct (Z.eq_dec (trailing_crc data) (recomputed_crc data)); tauto).
  assert (C' : trailing_crc (flip_bits data ps) = recomputed_crc (flip_bits data ps))
    by (destruct (Z.eq_dec (trailing_crc (flip_bits data ps))
                           (recomputed_crc (flip_bits data ps))); tauto).
  unfold trailing_crc, recomputed_crc in C, C'. rewrite S in C. rewrite S' in C'.
  change (3 + Z.to_nat 5)%nat with 8%nat in C, C'.
  change (8 + 1)%nat with 9%nat in C, C'.
  rewrite (crc16_usb_affine (flip_bits data ps) data (bit_pattern ps) 8) in C'
    by (intros i _; apply Hreads).
  rewrite !Hreads in C'.
  rewrite uint16_le_lxor in C' by (apply read_range || now apply bit_pattern_range).
  rewrite C in C'.
  apply (f_equal (Z.lxor (crc16_usb data 8))) in C'.
  rewrite <- !Z.lxor_assoc, Z.lxor_nilpotent, !Z.lxor_0_l in C'.
  unfold frame_syndrome. rewrite C'. apply Z.lxor_nilpotent.
Qed.

(** X6.  A valid command frame in which an odd number of bits of its ten
    bytes has been inverted (one bit, three bits, ...) is always rejected,
    wherever the bits are: in the header, the payload or the CRC. *)
Theorem odd_bit_flips_rejected
  (data : list byte) (len : nat) (cmd : CommandPayload) (ps : list (nat * Z)) :
  (10 <= len)%nat -> (len <= length data)%nat ->
  ret (unmarshall_command_frame (Some data) len (Some cmd)) = 0 ->
  Forall frame_bit ps ->
  Nat.odd (length ps) = true ->
  ret (unmarshall_command_frame (Some (flip_bits data ps)) len (Some cmd)) = -1.
Proof.
  intros Hlen Hdata Hok Hps Hodd.
  apply flipped_frame_rejected; try assumption.
  intros Hzero.
  pose proof (frame_syndrome_parity ps Hps) as Hpar.
  rewrite Hzero, pattern_parity_bits, Hodd in Hpar by exact Hps.
  discriminate Hpar.
Qed.

Lemma odd_bit_flips_rejected_witness :
  ret (unmarshall_command_frame
         (Some (flip_bits frame_start_200_480 [(4%nat, 3)])) 10 (Some cmd_stop)) = -1.
Proof.
  apply odd_bit_flips_rejected.
  - lia.
  - simpl. lia.
  - vm_compute. reflexivity.
  - apply List.Forall_cons; [|apply List.Forall_nil].
    unfold frame_bit. simpl. lia.
  - reflexivity.
Defined.

(** Every pair of different bits of a frame changes the recomputed and
    the carried CRC differently (checked on all 80 x 80 pairs). *)
Lemma two_bits_detected :
  forallb (fun p =>
    forallb (fun q => position_eqb p q || negb (frame_syndrome [p; q] =? 0))
            frame_bits)
    frame_bits = true.
Proof. vm_compute. reflexivity. Qed.

Lemma two_bits_detected_spec (p q : nat * Z) :
  In p frame_bits -> In q frame_bits -> p <> q -> frame_syndrome [p; q] <> 0.
Proof.
  intros Hp Hq Hpq.
  pose proof (proj1 (forallb_forall _ _) two_bits_detected p Hp) as Hrow.
  cbv beta in Hrow.
  pose proof (proj1 (forallb_forall _ _) Hrow q Hq) as Hall.
  cbv beta in Hall. clear Hrow.
  apply orb_true_iff in Hall. destruct Hall as [Heq|Hne].
  - exfalso. apply Hpq. unfold position_eqb in Heq.
    apply andb_true_iff in Heq. destruct Heq as [Hi Hj].
    apply Nat.eqb_eq in Hi. apply Z.eqb_eq in Hj.
    destruct p, q; simpl in Hi, Hj; congruence.
  - apply negb_true_iff in Hne. now apply Z.eqb_neq in Hne.
Qed.

(** X7.  A valid command frame in which two different bits of its ten bytes
    have been inverted is always rejected. *)
Theorem two_bit_flips_rejected
  (data : list byte) (len : nat) (cmd : CommandPayload) (p q : nat * Z) :
  (10 <= len)%nat -> (len <= length data)%nat ->
  ret (unmarshall_command_frame (Some data) len (Some cmd)) = 0 ->
  frame_bit p -> frame_bit q -> p <> q ->
  ret (unmarshall_command_frame (Some (flip_bits data [p; q])) len (Some cmd)) = -1.
Proof.
  intros Hlen Hdata Hok Hp Hq Hpq.
  apply flipped_frame_rejected; try assumption.
  - apply List.Forall_cons; [exact Hp|].
    apply List.Forall_cons; [exact Hq | apply List.Forall_nil].
  - apply two_bits_detected_spec; [now apply frame_bit_cases.. | exact Hpq].
Qed.

Lemma two_bit_flips_rejected_witness :
  ret (unmarshall_command_frame
         (Some (flip_bits frame_start_200_480 [(4%nat, 3); (9%nat, 0)]))
         10 (Some cmd_stop)) = -1.
Proof.
  apply two_bit_flips_rejected.
  - lia.
  - simpl. lia.
  - vm_compute. reflexivity.
  - unfold frame_bit. simpl. lia.
  - unfold frame_bit. simpl. lia.
  - discriminate.
Defined.

(** * Further properties of the oven simulation *)

(** ** How long a cycle takes *)

Lemma tick_oven_rules (k : Koven) :
  Koven_wf k -> tick_rules k (tick_oven k).
Proof.
  intros Hwf. unfold tick_oven.
  destruct (koven_tick_rules k event_zero Hwf) as (k' & e' & -> & _ & Hrules).
  exact Hrules.
Qed.

(** Case analysis on the comparisons of [ticks_to_idle]. *)
Ltac ticks_cases :=
  unfold ticks_to_idle, preheating_ticks, baking_ticks, cooling_ticks,
    ROOM_TEMPERATURE, Koven_wf, int16_range in *;
  simpl in *;
  repeat match goal with
    | |- context [?a >? ?b] => rewrite (Z.gtb_ltb a b)
    | H : context [?a >? ?b] |- _ => rewrite (Z.gtb_ltb a b) in H
    end;
  repeat match goal with
    | |- context [?a <? ?b] => destruct (Z.ltb_spec a b)
    | H : context [?a <? ?b] |- _ => destruct (Z.ltb_spec a b)
    end;
  try lia.

Lemma ticks_to_idle_nonneg (k : Koven) : 0 <= ticks_to_idle k.
Proof. destruct k as [[] c r d t]; ticks_cases. Qed.

Lemma ticks_to_idle_zero (k : Koven) :
  ticks_to_idle k = 0 <-> state k = STATE_IDLE.
Proof.
  destruct k as [[] c r d t]; split; intros H; try reflexivity;
    try discriminate H; exfalso; ticks_cases.
Qed.

(** Each tick of a running oven brings it one tick closer to Idle, and the
    tick that reaches Idle resets the oven. *)
Lemma tick_oven_measure (k : Koven) :
  Koven_wf k -> state k <> STATE_IDLE ->
  Koven_wf (tick_oven k) /\
  ticks_to_idle k = 1 + ticks_to_idle (tick_oven k) /\
  (state (tick_oven k) = STATE_IDLE -> tick_oven k = koven_idle_room).
Proof.
  intros Hwf Hrun.
  destruct (tick_oven_rules k Hwf)
    as (Hheat & Hbake & Hcount & Hcool & Hdone & Hdown & Hroom & _).
  destruct k as [s c r d t]; simpl in *.
  destruct s; [contradiction| | |].
  - destruct (Z.lt_ge_cases c t) as [Hlt|Hge].
    + rewrite (Hheat eq_refl Hlt).
      repeat split; try discriminate; ticks_cases.
    + rewrite (Hbake eq_refl Hge).
      repeat split; try discriminate; ticks_cases.
  - destruct (Z.lt_ge_cases 0 r) as [Hpos|Hzero].
    + rewrite (Hcount eq_refl Hpos).
      repeat split; try discriminate; ticks_cases.
    + destruct (Z.lt_ge_cases 25 c) as [Hhot|Hcold].
      * rewrite (Hcool eq_refl Hzero Hhot).
        repeat split; try discriminate; ticks_cases.
      * rewrite (Hdone eq_refl Hzero Hcold).
        repeat split; try reflexivity; ticks_cases.
  - destruct (Z.lt_ge_cases 25 c) as [Hhot|Hcold].
    + rewrite (Hdown eq_refl Hhot).
      repeat split; try discriminate; ticks_cases.
    + rewrite (Hroom eq_refl Hcold).
      repeat split; try reflexivity; ticks_cases.
Qed.

Lemma ticks_succ (n : nat) (k : Koven) : ticks (S n) k = ticks n (tick_oven k).
Proof. unfold ticks. apply Nat.iter_succ_r. Qed.

Lemma ticks_to_idle_steps (n : nat) (k : Koven) :
  Koven_wf k -> ticks_to_idle k = Z.of_nat n ->
  state (ticks n k) = STATE_IDLE /\
  (state k <> STATE_IDLE -> ticks n k = koven_idle_room) /\
  (forall m, (m < n)%nat -> state (ticks m k) <> STATE_IDLE).
Proof.
  revert k. induction n as [|n IH]; intros k Hwf Hn.
  - apply ticks_to_idle_zero in Hn.
    repeat split; [exact Hn | contradiction | intros m Hm; lia].
  - assert (Hrun : state k <> STATE_IDLE).
    { intros Hidle. apply ticks_to_idle_zero in Hidle. lia. }
    destruct (tick_oven_measure k Hwf Hrun) as (Hwf' & Hstep & Hreset).
    destruct (IH (tick_oven k) Hwf' ltac:(lia)) as (Hend & Hroom & Hbefore).
    rewrite ticks_succ. split; [exact Hend|]. split.
    + intros _. destruct n as [|n].
      * apply Hreset. exact Hend.
      * apply Hroom. intros Hidle. apply ticks_to_idle_zero in Hidle. lia.
    + intros [|m] Hm; [exact Hrun|].
      rewrite ticks_succ. apply Hbefore. lia.
Qed.

(** X8.  Left alone, an oven whose fields are in range comes back to Idle
    after exactly [ticks_to_idle] ticks: it is not Idle at any earlier tick,
    and if it was running it ends fully reset (Idle, 25, -1, -1, -1).  So
    every cycle terminates, whatever target and duration were programmed. *)
Theorem ticks_to_idle_exact (k : Koven) :
  Koven_wf k ->
  state (ticks (Z.to_nat (ticks_to_idle k)) k) = STATE_IDLE /\
  (state k <> STATE_IDLE ->
   ticks (Z.to_nat (ticks_to_idle k)) k = koven_idle_room) /\
  (forall m, (m < Z.to_nat (ticks_to_idle k))%nat ->
     state (ticks m k) <> STATE_IDLE).
Proof.
  intros Hwf. apply ticks_to_idle_steps; [exact Hwf|].
  pose proof (ticks_to_idle_nonneg k). lia.
Qed.

Lemma ticks_to_idle_exact_witness :
  Koven_wf koven_preheating /\
  ticks (Z.to_nat (ticks_to_idle koven_preheating)) koven_preheating =
    koven_idle_room.
Proof.
  assert (Hwf : Koven_wf koven_preheating).
  { unfold Koven_wf, int16_range. simpl. lia. }
  split; [exact Hwf|].
  apply (proj1 (proj2 (ticks_to_idle_exact koven_preheating Hwf))).
  discriminate.
Defined.

(** X9.  A cycle started on the initial oven with a target above room
    temperature and a non-negative duration takes exactly
    2 * (target - 25) + duration + 3 ticks: heating, one tick to enter
    Baking, the duration, one tick to leave Baking, cooling, one tick to
    reset.  Until then the oven is never Idle. *)
Theorem start_cycle_length (k0 : Koven) (target dur : Z) :
  25 < target <= 32767 -> 0 <= dur <= 32767 ->
  let started := run k0 [Call_execute (Some (cmd_start target dur))] in
  let n := Z.to_nat (2 * (target - 25) + dur + 3) in
  ticks n started = koven_idle_room /\
  (forall m, (m < n)%nat -> state (ticks m started) <> STATE_IDLE).
Proof.
  intros Ht Hd started n.
  assert (Hs : started = mkKoven STATE_PREHEATING 25 (-1) dur target)
    by reflexivity.
  assert (Hwf : Koven_wf started).
  { rewrite Hs. unfold Koven_wf, int16_range. simpl. lia. }
  assert (Hn : ticks_to_idle started = 2 * (target - 25) + dur + 3).
  { rewrite Hs. ticks_cases. }
  destruct (ticks_to_idle_steps n started Hwf ltac:(subst n; lia))
    as (_ & Hroom & Hbefore).
  split; [|exact Hbefore].
  apply Hroom. rewrite Hs. discriminate.
Qed.

Lemma start_cycle_length_witness :
  ticks 16 (run koven_zero [Call_execute (Some (cmd_start 30 3))]) =
    koven_idle_room.
Proof.
  apply (proj1 (start_cycle_length koven_zero 30 3 ltac:(lia) ltac:(lia))).
Defined.

(** ** Stop *)

Lemma ticks_idle (n : nat) (k : Koven) :
  Koven_wf k -> state k = STATE_IDLE -> ticks n k = k.
Proof.
  intros Hwf Hidle. induction n as [|n IH]; [reflexivity|].
  rewrite ticks_succ.
  destruct (tick_oven_rules k Hwf) as (_ & _ & _ & _ & _ & _ & _ & Hsame).
  rewrite (Hsame Hidle). exact IH.
Qed.

(** X10.  Stop does not start a cool-down: after a Stop command the oven is
    Idle at the temperature it had, and no number of ticks changes it; a
    stopped oven that was hot keeps reporting that temperature. *)
Theorem stop_then_ticks (k : Koven) (c : CommandPayload) (n : nat) :
  Koven_wf k -> action c = ACTION_STOP ->
  exists k' : Koven,
    koven_execute (Some k) (Some c) = Some k' /\
    ticks n k' = k' /\
    state k' = STATE_IDLE /\
    current_temperature k' = current_temperature k.
Proof.
  intros (Hc & _) Hstop.
  unfold koven_execute. rewrite Hstop. simpl.
  eexists. split; [reflexivity|].
  split; [|split; reflexivity].
  apply ticks_idle; [|reflexivity].
  unfold Koven_wf, int16_range in *. simpl. lia.
Qed.

Lemma stop_then_ticks_witness :
  exists k' : Koven,
    koven_execute (Some (mkKoven STATE_BAKING 180 300 600 180)) (Some cmd_stop) =
      Some k' /\
    ticks 50 k' = k' /\
    state k' = STATE_IDLE /\
    current_temperature k' = 180.
Proof.
  apply (stop_then_ticks (mkKoven STATE_BAKING 180 300 600 180) cmd_stop 50).
  - unfold Koven_wf, int16_range. simpl. lia.
  - reflexivity.
Defined.

(** * Properties of the names and of the dump *)

(** X11.  [state_to_string] gives the four states four different names and
    answers "unknown" exactly for the values that are no state. *)
Theorem state_to_string_names :
  (forall s1 s2 : State,
     state_to_string (State_value s1) = state_to_string (State_value s2) ->
     s1 = s2) /\
  (forall v : Z,
     state_to_string v = "unknown"%string <->
     forall s : State, v <> State_value s).
Proof.
  split.
  - intros [] []; simpl; intros H; try reflexivity; discriminate H.
  - intros v. unfold state_to_string. simpl State_value. split.
    + intros H s Hv. subst v. destruct s; discriminate H.
    + intros H.
      destruct (Z.eqb_spec v 0) as [E|_]; [exfalso; exact (H STATE_IDLE E)|].
      destruct (Z.eqb_spec v 1) as [E|_]; [exfalso; exact (H STATE_PREHEATING E)|].
      destruct (Z.eqb_spec v 2) as [E|_]; [exfalso; exact (H STATE_BAKING E)|].
      destruct (Z.eqb_spec v 3) as [E|_]; [exfalso; exact (H STATE_COOLING_DOWN E)|].
      reflexivity.
Qed.

Lemma state_to_string_names_witness :
  state_to_string 99 = "unknown"%string.
Proof.
  apply (proj2 state_to_string_names 99).
  intros []; discriminate.
Defined.

(** X12.  The actions [action_to_string] names "unknown" are the ones
    [koven_execute] ignores: a command logged with that name leaves every
    oven as it is, and a command that changes some oven is logged as
    "start" or "stop". *)
Theorem action_to_string_unknown_ignored (k : Koven) (c : CommandPayload) :
  (action_to_string (action c) = "unknown"%string ->
   koven_execute (Some k) (Some c) = Some k) /\
  (koven_execute (Some k) (Some c) <> Some k ->
   action_to_string (action c) = "start"%string \/
   action_to_string (action c) = "stop"%string).
Proof.
  unfold action_to_string, koven_execute.
  destruct (action c =? ACTION_START); [split; [discriminate | now left]|].
  destruct (action c =? ACTION_STOP); [split; [discriminate | now right]|].
  split; [reflexivity | congruence].
Qed.

Lemma action_to_string_unknown_ignored_witness :
  koven_execute (Some koven_preheating) (Some (mkCommandPayload 99 180 600)) =
    Some koven_preheating.
Proof.
  apply (proj1 (action_to_string_unknown_ignored
                  koven_preheating (mkCommandPayload 99 180 600))).
  reflexivity.
Defined.

(** ** The hexadecimal dump *)

Lemma append_nil_r (s : string) : (s ++ "")%string = s.
Proof. induction s as [|c s IH]; simpl; [reflexivity | now rewrite IH]. Qed.

Lemma append_assoc (s1 s2 s3 : string) :
  ((s1 ++ s2) ++ s3)%string = (s1 ++ (s2 ++ s3))%string.
Proof. induction s1 as [|c s1 IH]; simpl; [reflexivity | now rewrite IH]. Qed.

Lemma append_inj_l (s a b : string) : (s ++ a)%string = (s ++ b)%string -> a = b.
Proof.
  induction s as [|c s IH]; simpl; [trivial|].
  intros [= H]. now apply IH.
Qed.

Lemma length_append (s1 s2 : string) :
  String.length (s1 ++ s2) = (String.length s1 + String.length s2)%nat.
Proof. induction s1 as [|c s1 IH]; simpl; [reflexivity | now rewrite IH]. Qed.

(** The loop of [print_frame_hex] appends the digits in order. *)
Lemma print_frame_hex_loop (data : list byte) (idx : list nat) (s : string) :
  fold_left (fun s i => (s ++ printf_02X (read data i))%string) idx s =
  (s ++ hex_body data idx)%string.
Proof.
  revert s. induction idx as [|i idx IH]; intros s; simpl.
  - now rewrite append_nil_r.
  - rewrite IH. apply append_assoc.
Qed.

Lemma print_frame_hex_shape (data : list byte) (len : nat) :
  print_frame_hex data len =
    ("Frame (" ++ printf_zu len ++ " bytes): " ++
     hex_body data (seq 0 len) ++ String "010" EmptyString)%string.
Proof.
  unfold print_frame_hex. cbv zeta. rewrite print_frame_hex_loop.
  rewrite !append_assoc. reflexivity.
Qed.

Lemma length_hex_body (data : list byte) (idx : list nat) :
  String.length (hex_body data idx) = (2 * length idx)%nat.
Proof.
  induction idx as [|i idx IH]; simpl; [reflexivity|].
  rewrite IH. lia.
Qed.

(** The character code of a hexadecimal digit. *)
Lemma hex_digit_code (d : Z) :
  0 <= d < 16 ->
  Z.of_N (N_of_ascii (hex_digit d)) = if d <? 10 then 48 + d else 55 + d.
Proof.
  intros Hd.
  assert (Hc : d = 0 \/ d = 1 \/ d = 2 \/ d = 3 \/ d = 4 \/ d = 5 \/ d = 6 \/
               d = 7 \/ d = 8 \/ d = 9 \/ d = 10 \/ d = 11 \/ d = 12 \/
               d = 13 \/ d = 14 \/ d = 15) by lia.
  repeat (destruct Hc as [->|Hc]; [reflexivity|]). subst d. reflexivity.
Qed.

Lemma hex_digit_inj (a b : Z) :
  0 <= a < 16 -> 0 <= b < 16 -> hex_digit a = hex_digit b -> a = b.
Proof.
  intros Ha Hb H.
  apply (f_equal (fun c => Z.of_N (N_of_ascii c))) in H.
  rewrite !hex_digit_code in H by assumption.
  destruct (Z.ltb_spec a 10), (Z.ltb_spec b 10); lia.
Qed.

Lemma printf_02X_inj (a b : Z) :
  0 <= a < 256 -> 0 <= b < 256 -> printf_02X a = printf_02X b -> a = b.
Proof.
  intros Ha Hb. unfold printf_02X. intros [= Hhi Hlo].
  apply hex_digit_inj in Hhi;
    [|split; [apply Z.div_pos | apply Z.div_lt_upper_bound]; lia..].
  apply hex_digit_inj in Hlo; [|apply Z.mod_pos_bound; lia..].
  pose proof (Z.div_mod a 16). pose proof (Z.div_mod b 16). lia.
Qed.

Lemma hex_body_inj (d1 d2 : list byte) (idx : list nat) (t1 t2 : string) :
  (hex_body d1 idx ++ t1)%string = (hex_body d2 idx ++ t2)%string ->
  forall i, In i idx -> read d1 i = read d2 i.
Proof.
  induction idx as [|k idx IH]; simpl; [contradiction|].
  intros [= Hhi Hlo Hrest] i [<-|Hi].
  - apply printf_02X_inj; try apply read_range.
    unfold printf_02X. now rewrite Hhi, Hlo.
  - now apply IH.
Qed.

(** The two digits of the byte at a position of the dump. *)
Lemma get_hex_body (data : list byte) (idx : list nat) (j i : nat) :
  idx !! j = Some i ->
  String.get (2 * j) (hex_body data idx) = Some (hex_digit (read data i / 16)) /\
  String.get (2 * j + 1) (hex_body data idx) = Some (hex_digit (read data i mod 16)).
Proof.
  revert j. induction idx as [|k idx IH]; intros [|j] Hj; try discriminate Hj.
  - injection Hj as ->. split; reflexivity.
  - replace (2 * S j)%nat with (S (S (2 * j))) by lia.
    replace (S (S (2 * j)) + 1)%nat with (S (S (2 * j + 1))) by lia.
    exact (IH j Hj).
Qed.

(** X13.  The dump [print_frame_hex] writes is the line
    "Frame (<len> bytes): ", two upper-case hexadecimal digits for each of
    the [len] bytes and a newline: the characters at positions 2i and 2i+1
    of the digits are the digits ("0"-"9", "A"-"F") of the high and the low
    half of byte i.  The dump determines the bytes: two buffers with the
    same dump agree on every byte dumped. *)
Theorem print_frame_hex_dump (d1 d2 : list byte) (len : nat) :
  (exists digits : string,
     print_frame_hex d1 len =
       ("Frame (" ++ printf_zu len ++ " bytes): " ++ digits ++
        String "010" EmptyString)%string /\
     String.length digits = (2 * len)%nat /\
     (forall i, (i < len)%nat ->
        exists hi lo : ascii,
          String.get (2 * i) digits = Some hi /\
          String.get (2 * i + 1) digits = Some lo /\
          Z.of_N (N_of_ascii hi) = upper_hex_code (read d1 i / 16) /\
          Z.of_N (N_of_ascii lo) = upper_hex_code (read d1 i mod 16))) /\
  (print_frame_hex d1 len = print_frame_hex d2 len ->
   forall i, (i < len)%nat -> read d1 i = read d2 i).
Proof.
  split.
  - exists (hex_body d1 (seq 0 len)). split; [apply print_frame_hex_shape|].
    split; [now rewrite length_hex_body, length_seq|].
    intros i Hi.
    destruct (get_hex_body d1 (seq 0 len) i i (lookup_seq_lt 0 len i Hi))
      as [Hhi Hlo].
    pose proof (read_range d1 i) as Hr.
    exists (hex_digit (read d1 i / 16)), (hex_digit (read d1 i mod 16)).
    split; [exact Hhi|]. split; [exact Hlo|].
    unfold upper_hex_code. split; apply hex_digit_code.
    + split; [apply Z.div_pos | apply Z.div_lt_upper_bound]; lia.
    + apply Z.mod_pos_bound. lia.
  - rewrite !print_frame_hex_shape. intros H i Hi.
    apply append_inj_l in H. apply append_inj_l in H. apply append_inj_l in H.
    apply (hex_body_inj d1 d2 (seq 0 len) _ _ H).
    apply in_seq. lia.
Qed.

Lemma print_frame_hex_dump_witness :
  read (frame_start_200_480 ++ [Byte.xff]) 4 = read frame_start_200_480 4.
Proof.
  apply (proj2 (print_frame_hex_dump (frame_start_200_480 ++ [Byte.xff])
                  frame_start_200_480 10) eq_refl 4%nat).
  lia.
Defined.

(** * Properties of the driver *)

Lemma size_t_of_int_length (n : nat) :
  Z.of_nat n < 2 ^ 31 -> size_t_of_int (Z.of_nat n) = n.
Proof.
  intros Hn. unfold size_t_of_int.
  rewrite Z.mod_small by (split; [lia|]; apply Z.lt_trans with (2 ^ 31); [lia|reflexivity]).
  apply Nat2Z.id.
Qed.

(** X14.  The command callback always returns 1.  A message with a null
    payload or with [payloadlen] 0 is dropped: the oven is left as it was
    and nothing is printed.  Otherwise the callback changes the oven only
    through a well-formed frame: if any of the five decoding checks fails
    the oven is left as it was and "Failed to parse" is printed; if none
    fails the oven is the one [koven_execute] gives for the command in the
    payload and "Command executed successfully" is printed, also when
    [koven_execute] ignores the command. *)
Theorem message_arrived_effect
  (context : option Koven) (payload : option (list byte)) (payloadlen : Z)
  (cmd : CommandPayload) :
  let a := message_arrived context payload payloadlen cmd in
  arrived_ret a = 1 /\
  (payload = None \/ payloadlen = 0 ->
   arrived_koven a = context /\ arrived_stdout a = [] /\ arrived_stderr a = []) /\
  (forall data : list byte,
     payload = Some data ->
     (0 < length data)%nat -> payloadlen = Z.of_nat (length data) ->
     payloadlen < 2 ^ 31 ->
     let len := length data in
     (frame_undersized len \/ frame_wrong_type data \/ frame_wrong_size data \/
      frame_truncated data len \/ frame_crc_mismatch data ->
      arrived_koven a = context /\
      arrived_stdout a =
        [Received_binary_command (Z.of_nat len);
         Frame_hex (print_frame_hex data len); Failed_to_parse]) /\
     (~ (frame_undersized len \/ frame_wrong_type data \/ frame_wrong_size data \/
         frame_truncated data len \/ frame_crc_mismatch data) ->
      arrived_koven a = koven_execute context (Some (payload_command data)) /\
      arrived_stdout a =
        [Received_binary_command (Z.of_nat len);
         Frame_hex (print_frame_hex data len);
         Command_parsed (action_to_string (read data 3))
                        (sint16_le (read data 4) (read data 5))
                        (sint16_le (read data 6) (read data 7));
         Command_executed])).
Proof.
  intros a. subst a. split; [|split].
  - unfold message_arrived. cbv zeta.
    destruct payload as [data|]; [|reflexivity].
    destruct (payloadlen =? 0); [reflexivity|].
    destruct (unmarshall_command_frame_paths data (size_t_of_int payloadlen) cmd)
      as [(_ & ->) | [(_ & _ & ->) | [(_ & _ & _ & ->) |
          [(_ & _ & _ & _ & _ & ->) | (_ & _ & _ & _ & _ & ->)]]]];
      reflexivity.
  - unfold message_arrived. cbv zeta.
    intros [-> | ->]; [repeat split|].
    destruct payload as [data|]; repeat split.
  - intros data -> Hpos -> Hint len. subst len.
    unfold message_arrived. cbv zeta.
    destruct (Z.eqb_spec (Z.of_nat (length data)) 0) as [Habs|_]; [lia|].
    rewrite size_t_of_int_length by exact Hint.
    destruct (unmarshall_command_frame_paths data (length data) cmd)
      as [(H1 & ->) | [(N1 & H2 & ->) | [(N1 & N2 & H3 & ->) |
          [(N1 & N2 & N3 & N4 & H5 & ->) | (N1 & N2 & N3 & N4 & N5 & ->)]]]];
      simpl; split; intros H; try tauto; split; reflexivity.
Qed.

Lemma message_arrived_effect_witness :
  arrived_koven
    (message_arrived (Some koven_idle_room) (Some frame_wrong_crc_only) 10 cmd_stop) =
  Some koven_idle_room.
Proof.
  apply (proj1 (proj2 (proj2 (message_arrived_effect (Some koven_idle_room)
                                (Some frame_wrong_crc_only) 10 cmd_stop))
                  frame_wrong_crc_only eq_refl
                  ltac:(simpl; lia) eq_refl ltac:(lia))).
  right; right; right; right.
  unfold frame_crc_mismatch. vm_compute. discriminate.
Defined.

(** The callback keeps the oven reachable. *)
Lemma message_arrived_keeps_reachable
  (k : Koven) (payload : option (list byte)) (payloadlen : Z)
  (cmd : CommandPayload) :
  reachable k ->
  exists k' : Koven,
    arrived_koven (message_arrived (Some k) payload payloadlen cmd) = Some k' /\
    reachable k'.
Proof.
  intros Hk. unfold message_arrived. cbv zeta.
  destruct payload as [data|]; [|exists k; now split].
  destruct (payloadlen =? 0); [exists k; now split|].
  destruct (unmarshall_command_frame_paths data (size_t_of_int payloadlen) cmd)
    as [(_ & ->) | [(_ & _ & ->) | [(_ & _ & _ & ->) |
        [(_ & _ & _ & _ & _ & ->) | (_ & _ & _ & _ & _ & ->)]]]];
    cbn [ret out stderr default from_option id arrived_koven Z.eqb];
    try (exists k; now split).
  destruct (koven_execute (Some k) (Some (payload_command data))) as [k'|] eqn:E.
  - exists k'. split; [reflexivity|].
    apply (reachable_execute k k' (Some (payload_command data)) Hk); [|exact E].
    simpl. apply payload_command_wf.
  - unfold koven_execute in E.
    repeat match type of E with
      | (if ?b then _ else _) = None => destruct b
      end; discriminate E.
Qed.

(** X15.  Whatever message arrives (null, empty, malformed or well-formed),
    the callback takes a reachable oven to a reachable oven: a decoded
    command always has the values of its C types, so every invariant of the
    reachable states survives arbitrary input bytes. *)
Theorem message_arrived_reachable
  (k : Koven) (payload : option (list byte)) (payloadlen : Z)
  (cmd : CommandPayload) :
  reachable k -> message_ok payload payloadlen ->
  exists k' : Koven,
    arrived_koven (message_arrived (Some k) payload payloadlen cmd) = Some k' /\
    reachable k'.
Proof.
  intros Hk _. now apply message_arrived_keeps_reachable.
Qed.

Lemma message_arrived_reachable_witness :
  exists k' : Koven,
    arrived_koven
      (message_arrived (Some (run koven_zero calls_short_bake))
                       (Some frame_start_200_480) 10 cmd_stop) = Some k' /\
    reachable k'.
Proof.
  apply message_arrived_reachable.
  - apply run_reachable. exact calls_short_bake_wf.
  - simpl. split; [reflexivity | lia].
Defined.

Lemma koven_tick_present (k : Koven) (e : EventPayload) :
  exists e' : EventPayload,
    koven_tick (Some k) (Some e) = (Some (tick_oven k), Some e') /\
    snapshot_of (tick_oven k) e'.
Proof.
  eexists. split; [reflexivity|].
  unfold snapshot_of. cbn [ev_state ev_current_temperature ev_remaining_time
                           ev_programmed_temperature ev_programmed_duration].
  rewrite State_value_uint8. repeat split.
Qed.

Lemma tick_oven_reachable (k : Koven) : reachable k -> reachable (tick_oven k).
Proof.
  intros Hk.
  destruct (koven_tick_present k event_zero) as (e' & Hrun & _).
  exact (reachable_tick k (tick_oven k) (Some event_zero) (Some e') Hk Hrun).
Qed.

Lemma tick_oven_wf (k : Koven) : Koven_wf k -> Koven_wf (tick_oven k).
Proof.
  intros Hwf.
  destruct (tick_oven_rules k Hwf)
    as (Hheat & Hbake & Hcount & Hcool & Hdone & Hdown & Hroom & Hidle).
  destruct k as [s c r d t]; simpl in *.
  destruct s.
  - now rewrite (Hidle eq_refl).
  - destruct (Z.lt_ge_cases c t) as [Hlt|Hge];
      [rewrite (Hheat eq_refl Hlt) | rewrite (Hbake eq_refl Hge)];
      unfold Koven_wf, int16_range in *; simpl in *; lia.
  - destruct (Z.lt_ge_cases 0 r) as [Hpos|Hzero];
      [rewrite (Hcount eq_refl Hpos); unfold Koven_wf, int16_range in *; simpl in *; lia|].
    destruct (Z.lt_ge_cases 25 c) as [Hhot|Hcold];
      [rewrite (Hcool eq_refl Hzero Hhot) | rewrite (Hdone eq_refl Hzero Hcold)];
      unfold Koven_wf, int16_range in *; simpl in *; lia.
  - destruct (Z.lt_ge_cases 25 c) as [Hhot|Hcold];
      [rewrite (Hdown eq_refl Hhot) | rewrite (Hroom eq_refl Hcold)];
      unfold Koven_wf, int16_range in *; simpl in *; lia.
Qed.

Lemma snapshot_wf (k : Koven) (e : EventPayload) :
  Koven_wf k -> snapshot_of k e -> EventPayload_wf e.
Proof.
  intros (Hc & Hr & Hd & Ht) (Es & Ec & Er & Et & Ed).
  unfold EventPayload_wf. rewrite Es, Ec, Er, Et, Ed.
  unfold uint8_range, int16_range in *.
  destruct (state k); simpl; lia.
Qed.

(** The frame a round of the loop publishes. *)
Lemma mqtt_client_run_round_frame
  (k : Koven) (event : EventPayload) (frame_buffer : list byte) (rc : Z) :
  Koven_wf k -> length frame_buffer = 64%nat ->
  let p := mqtt_client_run_round (Some k) event frame_buffer rc in
  let k' := tick_oven k in
  published_koven p = Some k' /\
  ~ In Failed_to_build (published_stdout p) /\
  exists b : list byte,
    published_message p = Some (b, 14) /\ length b = 64%nat /\
    read b 0 = 0x02 /\
    uint16_le (read b 1) (read b 2) = 9 /\
    read b 3 = State_value (state k') /\
    sint16_le (read b 4) (read b 5) = current_temperature k' /\
    sint16_le (read b 6) (read b 7) = remaining_time k' /\
    sint16_le (read b 8) (read b 9) = programmed_duration k' /\
    sint16_le (read b 10) (read b 11) = programmed_temperature k' /\
    uint16_le (read b 12) (read b 13) = crc16_usb b 12.
Proof.
  intros Hwf Hlen p k'. subst p k'.
  destruct (koven_tick_present k event) as (e' & Hrun & Hsnap).
  pose proof (snapshot_wf _ _ (tick_oven_wf k Hwf) Hsnap) as (Hs & Hc & Hr & Hd & Ht).
  destruct Hsnap as (Es & Ec & Er & Et & Ed).
  unfold mqtt_client_run_round. rewrite Hrun.
  cbn [default from_option id].
  destruct (marshall_event_frame_layout e' frame_buffer 64
              ltac:(lia) ltac:(lia))
    as (b & -> & Hb & Htype & Hsize & Hstate & Hcur & Hrem & Hdur & Htemp & Hcrc & _).
  cbn [ret out stderr default from_option id Z.gtb Z.compare published_koven
       published_message published_stdout].
  split; [reflexivity|]. split.
  - destruct (rc =? MQTTCLIENT_SUCCESS); simpl; intuition discriminate.
  - exists b. split; [reflexivity|]. split; [lia|]. split; [exact Htype|].
    split; [apply (holds_le16_uint16 b 1 9); [unfold uint16_range; lia | exact Hsize]|].
    split; [rewrite Hstate, Z.mod_small, Es by (unfold uint8_range in Hs; lia);
            reflexivity|].
    split; [rewrite <- Ec; exact (holds_le16_int16 b 4 _ Hc Hcur)|].
    split; [rewrite <- Er; exact (holds_le16_int16 b 6 _ Hr Hrem)|].
    split; [rewrite <- Ed; exact (holds_le16_int16 b 8 _ Hd Hdur)|].
    split; [rewrite <- Et; exact (holds_le16_int16 b 10 _ Ht Htemp)|].
    apply (holds_le16_uint16 b 12); [apply crc16_usb_range | exact Hcrc].
Qed.

(** X16.  One round of the driver's loop on an oven whose fields are in
    range always publishes: it ticks the oven, never fails to build the
    frame, and hands over exactly 14 bytes that carry type 0x02, size 9, the
    state and the four fields of the oven after the tick (in the order
    current temperature, remaining time, programmed duration, programmed
    temperature) and the CRC of the first twelve bytes. *)
Theorem mqtt_client_run_round_publishes
  (k : Koven) (event : EventPayload) (frame_buffer : list byte) (rc : Z) :
  Koven_wf k -> length frame_buffer = 64%nat ->
  let p := mqtt_client_run_round (Some k) event frame_buffer rc in
  let k' := tick_oven k in
  published_koven p = Some k' /\
  ~ In Failed_to_build (published_stdout p) /\
  exists b : list byte,
    published_message p = Some (b, 14) /\ length b = 64%nat /\
    read b 0 = 0x02 /\
    uint16_le (read b 1) (read b 2) = 9 /\
    read b 3 = State_value (state k') /\
    sint16_le (read b 4) (read b 5) = current_temperature k' /\
    sint16_le (read b 6) (read b 7) = remaining_time k' /\
    sint16_le (read b 8) (read b 9) = programmed_duration k' /\
    sint16_le (read b 10) (read b 11) = programmed_temperature k' /\
    uint16_le (read b 12) (read b 13) = crc16_usb b 12.
Proof. exact (mqtt_client_run_round_frame k event frame_buffer rc). Qed.

Lemma mqtt_client_run_round_publishes_witness :
  published_koven
    (mqtt_client_run_round (Some koven_preheating) event_zero
                           (repeat Byte.x00 64) 0) =
  Some (tick_oven koven_preheating).
Proof.
  apply (mqtt_client_run_round_publishes koven_preheating event_zero
           (repeat Byte.x00 64) 0).
  - unfold Koven_wf, int16_range. simpl. lia.
  - reflexivity.
Defined.

Lemma driver_step_reachable (k : Koven) (c : DriverCall) :
  DriverCall_ok c -> reachable k -> reachable (driver_step k c).
Proof.
  intros Hok Hk. destruct c as [payload payloadlen cmd | event frame_buffer rc].
  - destruct (message_arrived_keeps_reachable k payload payloadlen cmd Hk)
      as (k' & E & Hk').
    unfold driver_step. rewrite E. exact Hk'.
  - pose proof (inv_wf k (reachable_inv k Hk)) as Hwf.
    destruct (mqtt_client_run_round_frame k event frame_buffer rc Hwf Hok)
      as (E & _).
    unfold driver_step. rewrite E. now apply tick_oven_reachable.
Qed.

Lemma driver_run_reachable (k0 : Koven) (calls : list DriverCall) :
  Forall DriverCall_ok calls -> reachable (driver_run k0 calls).
Proof.
  unfold driver_run. generalize (reachable_init k0). generalize (koven_init k0).
  induction calls as [|c calls IH]; intros k Hk Hall; simpl; [exact Hk|].
  inversion Hall; subst. apply IH; [|assumption].
  now apply driver_step_reachable.
Qed.

(** X17.  End to end: after [koven_init] and any sequence of messages
    (arbitrary bytes) and loop rounds, taken one at a time, the next round
    publishes a 14-byte frame whose state byte is one of the four states and
    whose temperature field is at least 25. *)
Theorem driver_publishes_valid_events
  (k0 : Koven) (calls : list DriverCall)
  (event : EventPayload) (frame_buffer : list byte) (rc : Z) :
  Forall DriverCall_ok calls -> length frame_buffer = 64%nat ->
  exists b : list byte,
    published_message
      (mqtt_client_run_round (Some (driver_run k0 calls)) event frame_buffer rc) =
      Some (b, 14) /\
    (exists s : State, read b 3 = State_value s) /\
    25 <= sint16_le (read b 4) (read b 5).
Proof.
  intros Hcalls Hlen.
  pose proof (driver_run_reachable k0 calls Hcalls) as Hreach.
  pose proof (inv_wf _ (reachable_inv _ Hreach)) as Hwf.
  destruct (mqtt_client_run_round_frame _ event frame_buffer rc Hwf Hlen)
    as (_ & _ & b & Hmsg & _ & _ & _ & Hstate & Hcur & _).
  exists b. split; [exact Hmsg|]. split; [eexists; exact Hstate|].
  rewrite Hcur.
  exact (inv_room _ (reachable_inv _ (tick_oven_reachable _ Hreach))).
Qed.

Lemma driver_publishes_valid_events_witness :
  exists b : list byte,
    published_message
      (mqtt_client_run_round
         (Some (driver_run koven_zero
                  [Message (Some frame_start_200_480) 10 cmd_stop;
                   Round event_zero (repeat Byte.x00 64) 0]))
         event_zero (repeat Byte.x00 64) 0) = Some (b, 14) /\
    (exists s : State, read b 3 = State_value s) /\
    25 <= sint16_le (read b 4) (read b 5).
Proof.
  apply driver_publishes_valid_events; [|reflexivity].
  apply List.Forall_cons; [simpl; split; [reflexivity | lia]|].
  apply List.Forall_cons; [reflexivity | apply List.Forall_nil].
Defined.

(** * Two more properties: stale buffers and overshoot *)

(** X18.  The encoder overwrites all of the first 14 bytes: the frame it
    builds depends on the event only, not on what the buffer held before
    (the driver passes an uninitialised buffer). *)
Theorem marshall_event_frame_overwrites
  (e : EventPayload) (buf1 buf2 b1 b2 : list byte) (size1 size2 : nat) :
  (size1 <= length buf1)%nat -> (14 <= size1)%nat ->
  (size2 <= length buf2)%nat -> (14 <= size2)%nat ->
  out (marshall_event_frame (Some e) (Some buf1) size1) = Some b1 ->
  out (marshall_event_frame (Some e) (Some buf2) size2) = Some b2 ->
  forall i, (i < 14)%nat -> read b1 i = read b2 i.
Proof.
  intros H1 G1 H2 G2 O1 O2.
  destruct (marshall_event_frame_layout e buf1 size1 H1 G1)
    as (c1 & R1 & _ & T1 & [S1 S1'] & P1 & [A1 A1'] & [B1 B1'] & [C1 C1'] &
        [D1 D1'] & [E1 E1'] & _).
  destruct (marshall_event_frame_layout e buf2 size2 H2 G2)
    as (c2 & R2 & _ & T2 & [S2 S2'] & P2 & [A2 A2'] & [B2 B2'] & [C2 C2'] &
        [D2 D2'] & [E2 E2'] & _).
  rewrite R1 in O1. rewrite R2 in O2. simpl in O1, O2.
  injection O1 as ->. injection O2 as ->.
  cbn [Nat.add] in *.
  assert (Hbody : forall i, (i < 12)%nat -> read b1 i = read b2 i).
  { intros i Hi.
    do 12 (destruct i as [|i]; [congruence|]). lia. }
  assert (Hcrc : crc16_usb b1 12 = crc16_usb b2 12)
    by (apply crc16_usb_ext; exact Hbody).
  intros i Hi.
  destruct (Nat.lt_ge_cases i 12) as [Hlt|Hge]; [now apply Hbody|].
  assert (Hc : i = 12%nat \/ i = 13%nat) by lia.
  destruct Hc as [->| ->]; congruence.
Qed.

Lemma marshall_event_frame_overwrites_witness :
  read (default [] (out (marshall_event_frame (Some event_preheating)
                           (Some buffer_20) 20))) 13 =
  read (default [] (out (marshall_event_frame (Some event_preheating)
                           (Some (repeat Byte.xff 14)) 14))) 13.
Proof.
  apply (marshall_event_frame_overwrites event_preheating
           buffer_20 (repeat Byte.xff 14) _ _ 20 14);
    try (simpl; lia); vm_compute; reflexivity.
Defined.

Lemma tick_oven_bound (k : Koven) (bound : Z) :
  Koven_wf k -> ROOM_TEMPERATURE <= bound ->
  current_temperature k <= bound ->
  (state k = STATE_PREHEATING -> programmed_temperature k <= bound) ->
  current_temperature (tick_oven k) <= bound /\
  (state (tick_oven k) = STATE_PREHEATING ->
   programmed_temperature (tick_oven k) <= bound).
Proof.
  intros Hwf Hroom Hcur Htarget.
  destruct (tick_oven_rules k Hwf)
    as (Hheat & Hbake & Hcount & Hcool & Hdone & Hdown & Hreset & Hidle).
  unfold ROOM_TEMPERATURE in Hroom.
  destruct k as [s c r d t]; simpl in *.
  destruct s.
  - rewrite (Hidle eq_refl). simpl. split; [lia | discriminate].
  - specialize (Htarget eq_refl).
    destruct (Z.lt_ge_cases c t) as [Hlt|Hge].
    + rewrite (Hheat eq_refl Hlt). simpl. split; [lia | intros _; lia].
    + rewrite (Hbake eq_refl Hge). simpl. split; [lia | discriminate].
  - destruct (Z.lt_ge_cases 0 r) as [Hpos|Hzero];
      [rewrite (Hcount eq_refl Hpos); simpl; split; [lia | discriminate]|].
    destruct (Z.lt_ge_cases 25 c) as [Hhot|Hcold];
      [rewrite (Hcool eq_refl Hzero Hhot) | rewrite (Hdone eq_refl Hzero Hcold)];
      simpl; (split; [lia | discriminate]).
  - destruct (Z.lt_ge_cases 25 c) as [Hhot|Hcold];
      [rewrite (Hdown eq_refl Hhot) | rewrite (Hreset eq_refl Hcold)];
      simpl; (split; [lia | discriminate]).
Qed.

(** X19.  The oven never overshoots: from an oven that is not hotter than
    its programmed target (a target of at least room temperature), as a
    freshly started one is, the temperature stays at or below that target at
    every later tick. *)
Theorem ticks_never_overshoot (k : Koven) (m : nat) :
  Koven_wf k ->
  ROOM_TEMPERATURE <= programmed_temperature k ->
  current_temperature k <= programmed_temperature k ->
  current_temperature (ticks m k) <= programmed_temperature k.
Proof.
  intros Hwf Hroom Hcur.
  set (bound := programmed_temperature k) in *.
  assert (Hinv : Koven_wf (ticks m k) /\
                 current_temperature (ticks m k) <= bound /\
                 (state (ticks m k) = STATE_PREHEATING ->
                  programmed_temperature (ticks m k) <= bound)).
  { induction m as [|m (IHwf & IHcur & IHt)].
    - simpl. split; [exact Hwf|]. split; [exact Hcur|].
      intros _. subst bound. lia.
    - change (ticks (S m) k) with (tick_oven (ticks m k)).
      split; [now apply tick_oven_wf|].
      now apply tick_oven_bound. }
  apply Hinv.
Qed.

Lemma ticks_never_overshoot_witness :
  current_temperature (ticks 200 koven_preheating) <= 180.
Proof.
  apply (ticks_never_overshoot koven_preheating 200).
  - unfold Koven_wf, int16_range. simpl. lia.
  - unfold ROOM_TEMPERATURE. simpl. lia.
  - simpl. lia.
Defined.
